(** * The heuristic resume parser of [server/services/parseService.js]

    A shallow embedding of the parser ([parseResumeContent] and everything
    below it) and the proofs of its properties.

    JavaScript strings are sequences of UTF-16 code units; they are modelled
    as lists of code units, so that [length], [split], [trim], [includes] and
    the regular expressions see exactly what the engine sees.  The one
    operation that needs the Unicode tables, [String.prototype.toLowerCase],
    is a parameter of the development. *)

From Stdlib Require Import String Ascii NArith ZArith Arith Bool Lia List.
From Stdlib Require Floats Uint63.
Import ListNotations.

Set Implicit Arguments.

(* ------------------------------------------------------------------ *)
(** ** Strings *)

Definition str := list N.

(** An ASCII literal as a JavaScript string. *)
Definition js (s : string) : str := map N_of_ascii (list_ascii_of_string s).

Definition ch (a : ascii) : N := N_of_ascii a.

Definition between (lo hi c : N) : bool := ((lo <=? c) && (c <=? hi))%N.

(** [s === ""] and the truth value of a string. *)
Definition isEmpty (s : str) : bool := match s with [] => true | _ => false end.
Definition truthy (s : str) : bool := negb (isEmpty s).

Fixpoint str_eqb (a b : str) : bool :=
  match a, b with
  | [], [] => true
  | x :: a', y :: b' => (x =? y)%N && str_eqb a' b'
  | _, _ => false
  end.

(** WhiteSpace and LineTerminator code units, the ones [trim] strips and
    [\s] matches. *)
Definition isWhiteSpace (c : N) : bool :=
  between 9 13 c || (c =? 32)%N || (c =? 160)%N || (c =? 5760)%N
  || between 8192 8202 c || (c =? 8232)%N || (c =? 8233)%N
  || (c =? 8239)%N || (c =? 8287)%N || (c =? 12288)%N || (c =? 65279)%N.

Fixpoint trimStart (s : str) : str :=
  match s with
  | c :: s' => if isWhiteSpace c then trimStart s' else s
  | [] => []
  end.

Definition trimEnd (s : str) : str := rev (trimStart (rev s)).

Definition trim (s : str) : str := trimEnd (trimStart s).

(** [s.split(sep)] for a separator of one code unit. *)
Fixpoint split (sep : N) (s : str) : list str :=
  match s with
  | [] => [[]]
  | c :: s' =>
      if (c =? sep)%N then [] :: split sep s'
      else match split sep s' with
           | h :: t => (c :: h) :: t
           | [] => [[c]]
           end
  end.

(** [parts.join(sep)] *)
Fixpoint join (sep : str) (parts : list str) : str :=
  match parts with
  | [] => []
  | [p] => p
  | p :: rest => p ++ sep ++ join sep rest
  end.

Fixpoint startsWith (s p : str) : bool :=
  match p, s with
  | [], _ => true
  | y :: p', x :: s' => (x =? y)%N && startsWith s' p'
  | _ :: _, [] => false
  end.

(** [s.includes(p)] *)
Fixpoint includes (s p : str) : bool :=
  startsWith s p
  || match s with
     | [] => false
     | _ :: s' => includes s' p
     end.

(** The ASCII part of [toLowerCase]: [A-Z] to [a-z], the rest unchanged. *)
Definition lowerUnit (c : N) : N := if between 65 90 c then (c + 32)%N else c.
Definition asciiLower (s : str) : str := map lowerUnit s.

Definition isAscii (c : N) : bool := (c <? 128)%N.

(** What the development asks of a [toLowerCase]: on a string of ASCII code
    units it is the ASCII case mapping.  (The engine's function satisfies it;
    beyond ASCII nothing is assumed, not even that the length is kept.) *)
Definition lowers_ascii (toLowerCase : str -> str) : Prop :=
  forall s, forallb isAscii s = true -> toLowerCase s = asciiLower s.

(* ------------------------------------------------------------------ *)
(** ** Regular expressions

    The patterns of the source use literals, character classes, [\d], [\w],
    [\s], [\b], [^], grouping, alternation and greedy quantifiers; every
    unbounded quantifier is applied to a single character class.  The matcher
    is the backtracking matcher of the language definition, written with
    continuations, so that [match] returns the same substring as the engine. *)

Inductive cls_item : Type :=
| CU (c : N)            (* one code unit *)
| CR (lo hi : N)        (* a range lo-hi *)
| Cd                    (* \d *)
| Cw                    (* \w *)
| Cs.                   (* \s *)

Definition cls := list cls_item.

Inductive regex : Type :=
| Eps
| Cls (c : cls)             (* one code unit of the class *)
| Seq (a b : regex)
| Alt (a b : regex)         (* a|b *)
| Opt (a : regex)           (* a? , greedy *)
| Star (c : cls)            (* c* , greedy *)
| Bol                       (* ^ *)
| WordB.                    (* \b *)

Definition isDigit (c : N) : bool := between 48 57 c.
Definition isWordChar (c : N) : bool :=
  between 97 122 c || between 65 90 c || isDigit c || (c =? 95)%N.

(** Canonicalize under the [i] flag (no [u] flag).  The patterns hold ASCII
    code units only, and a code unit above 127 never canonicalizes to one
    below 128, so the ASCII upper-casing decides every comparison. *)
Definition canon (c : N) : N := if between 97 122 c then (c - 32)%N else c.
Definition swapCase (c : N) : N :=
  if between 97 122 c then (c - 32)%N
  else if between 65 90 c then (c + 32)%N else c.

Definition item_mem (icase : bool) (it : cls_item) (c : N) : bool :=
  match it with
  | CU x => if icase then (canon x =? canon c)%N else (x =? c)%N
  | CR lo hi => between lo hi c || (icase && between lo hi (swapCase c))
  | Cd => isDigit c
  | Cw => isWordChar c
  | Cs => isWhiteSpace c
  end.

Definition cls_mem (icase : bool) (c : cls) (x : N) : bool :=
  existsb (fun it => item_mem icase it x) c.

Definition isWordBefore (prev : option N) : bool :=
  match prev with Some c => isWordChar c | None => false end.
Definition isWordAt (s : str) : bool :=
  match s with c :: _ => isWordChar c | [] => false end.

Section Matcher.
Variable icase : bool.
Variable A : Type.

(** A continuation receives the code unit before the current position
    (none at the start of the input) and the rest of the input. *)
Definition cont := option N -> str -> option A.

Fixpoint star (c : cls) (prev : option N) (s : str) (k : cont) : option A :=
  match s with
  | x :: s' =>
      if cls_mem icase c x then
        match star c (Some x) s' k with
        | Some r => Some r
        | None => k prev s
        end
      else k prev s
  | [] => k prev s
  end.

Fixpoint run (r : regex) (prev : option N) (s : str) (k : cont) : option A :=
  match r with
  | Eps => k prev s
  | Cls c =>
      match s with
      | x :: s' => if cls_mem icase c x then k (Some x) s' else None
      | [] => None
      end
  | Seq a b => run a prev s (fun p t => run b p t k)
  | Alt a b =>
      match run a prev s k with
      | Some r => Some r
      | None => run b prev s k
      end
  | Opt a =>
      match run a prev s k with
      | Some r => Some r
      | None => k prev s
      end
  | Star c => star c prev s k
  | Bol => match prev with None => k prev s | Some _ => None end
  | WordB => if xorb (isWordBefore prev) (isWordAt s) then k prev s else None
  end.
End Matcher.

(** The leftmost match: [s.match(r)[0]], or [None] for [null]. *)
Fixpoint exec_from (icase : bool) (r : regex) (prev : option N) (s : str)
  : option str :=
  match run icase r prev s (fun _ t => Some t) with
  | Some t => Some (firstn (length s - length t) s)
  | None =>
      match s with
      | x :: s' => exec_from icase r (Some x) s'
      | [] => None
      end
  end.

Definition exec (icase : bool) (r : regex) (s : str) : option str :=
  exec_from icase r None s.

(** [r.test(s)] *)
Definition test (icase : bool) (r : regex) (s : str) : bool :=
  match exec icase r s with Some _ => true | None => false end.

(** Pattern builders. *)
Definition seq (rs : list regex) : regex := fold_right Seq Eps rs.
Definition chr (a : ascii) : regex := Cls [CU (ch a)].
Definition lit (s : string) : regex :=
  seq (map (fun a => chr a) (list_ascii_of_string s)).

(** [r{n}] *)
Fixpoint times (n : nat) (r : regex) : regex :=
  match n with
  | O => Eps
  | S n' => Seq r (times n' r)
  end.

(** [r{0,n}], greedy *)
Fixpoint upto (n : nat) (r : regex) : regex :=
  match n with
  | O => Eps
  | S n' => Opt (Seq r (upto n' r))
  end.

(** [r{m,n}] *)
Definition rep (m n : nat) (r : regex) : regex := Seq (times m r) (upto (n - m) r).

(** [c{m,}], in particular [c+] *)
Definition atLeast (m : nat) (c : cls) : regex := Seq (times m (Cls c)) (Star c).
Definition plus (c : cls) : regex := atLeast 1 c.

Definition digit : regex := Cls [Cd].

(* ------------------------------------------------------------------ *)
(** ** The resume record *)

Module Exp.
Record t : Type := mk {
  title : str;
  companyName : str;
  date : str;
  companyLocation : str;
  accomplishment : list str
}.
End Exp.

Module Edu.
Record t : Type := mk {
  degree : str;
  institution : str;
  duration : str;
  location : str
}.
End Edu.

Module Ach.
Record t : Type := mk {
  keyAchievements : str;
  describe : str
}.
End Ach.

Module Proj.
Record t : Type := mk {
  title : str;
  description : str;
  duration : str
}.
End Proj.

Module Cert.
Record t : Type := mk {
  title : str;
  issuedBy : str;
  year : str
}.
End Cert.

Module Course.
Record t : Type := mk {
  title : str;
  description : str
}.
End Course.

Record ResumeData : Type := mkResume {
  name : str;
  role : str;
  phone : str;
  email : str;
  linkedin : str;
  location : str;
  summary : str;
  experience : list Exp.t;
  education : list Edu.t;
  achievements : list Ach.t;
  skills : list str;
  languages : list str;
  projects : list Proj.t;
  courses : list Course.t;
  certifications : list Cert.t
}.

(** Assignments [resumeData.f = v]. *)
Definition set_name (v : str) (r : ResumeData) : ResumeData :=
  mkResume v (role r) (phone r) (email r) (linkedin r) (location r)
    (summary r) (experience r) (education r) (achievements r) (skills r)
    (languages r) (projects r) (courses r) (certifications r).
Definition set_role (v : str) (r : ResumeData) : ResumeData :=
  mkResume (name r) v (phone r) (email r) (linkedin r) (location r)
    (summary r) (experience r) (education r) (achievements r) (skills r)
    (languages r) (projects r) (courses r) (certifications r).
Definition set_phone (v : str) (r : ResumeData) : ResumeData :=
  mkResume (name r) (role r) v (email r) (linkedin r) (location r)
    (summary r) (experience r) (education r) (achievements r) (skills r)
    (languages r) (projects r) (courses r) (certifications r).
Definition set_email (v : str) (r : ResumeData) : ResumeData :=
  mkResume (name r) (role r) (phone r) v (linkedin r) (location r)
    (summary r) (experience r) (education r) (achievements r) (skills r)
    (languages r) (projects r) (courses r) (certifications r).
Definition set_linkedin (v : str) (r : ResumeData) : ResumeData :=
  mkResume (name r) (role r) (phone r) (email r) v (location r)
    (summary r) (experience r) (education r) (achievements r) (skills r)
    (languages r) (projects r) (courses r) (certifications r).
Definition set_location (v : str) (r : ResumeData) : ResumeData :=
  mkResume (name r) (role r) (phone r) (email r) (linkedin r) v
    (summary r) (experience r) (education r) (achievements r) (skills r)
    (languages r) (projects r) (courses r) (certifications r).
Definition set_summary (v : str) (r : ResumeData) : ResumeData :=
  mkResume (name r) (role r) (phone r) (email r) (linkedin r) (location r)
    v (experience r) (education r) (achievements r) (skills r)
    (languages r) (projects r) (courses r) (certifications r).
Definition set_experience (v : list Exp.t) (r : ResumeData) : ResumeData :=
  mkResume (name r) (role r) (phone r) (email r) (linkedin r) (location r)
    (summary r) v (education r) (achievements r) (skills r)
    (languages r) (projects r) (courses r) (certifications r).
Definition set_education (v : list Edu.t) (r : ResumeData) : ResumeData :=
  mkResume (name r) (role r) (phone r) (email r) (linkedin r) (location r)
    (summary r) (experience r) v (achievements r) (skills r)
    (languages r) (projects r) (courses r) (certifications r).
Definition set_achievements (v : list Ach.t) (r : ResumeData) : ResumeData :=
  mkResume (name r) (role r) (phone r) (email r) (linkedin r) (location r)
    (summary r) (experience r) (education r) v (skills r)
    (languages r) (projects r) (courses r) (certifications r).
Definition set_skills (v : list str) (r : ResumeData) : ResumeData :=
  mkResume (name r) (role r) (phone r) (email r) (linkedin r) (location r)
    (summary r) (experience r) (education r) (achievements r) v
    (languages r) (projects r) (courses r) (certifications r).
Definition set_languages (v : list str) (r : ResumeData) : ResumeData :=
  mkResume (name r) (role r) (phone r) (email r) (linkedin r) (location r)
    (summary r) (experience r) (education r) (achievements r) (skills r)
    v (projects r) (courses r) (certifications r).
Definition set_projects (v : list Proj.t) (r : ResumeData) : ResumeData :=
  mkResume (name r) (role r) (phone r) (email r) (linkedin r) (location r)
    (summary r) (experience r) (education r) (achievements r) (skills r)
    (languages r) v (courses r) (certifications r).
Definition set_courses (v : list Course.t) (r : ResumeData) : ResumeData :=
  mkResume (name r) (role r) (phone r) (email r) (linkedin r) (location r)
    (summary r) (experience r) (education r) (achievements r) (skills r)
    (languages r) (projects r) v (certifications r).
Definition set_certifications (v : list Cert.t) (r : ResumeData) : ResumeData :=
  mkResume (name r) (role r) (phone r) (email r) (linkedin r) (location r)
    (summary r) (experience r) (education r) (achievements r) (skills r)
    (languages r) (projects r) (courses r) v.

(* ------------------------------------------------------------------ *)
(** ** Line classifiers that do not lower-case *)

(** [/\b\w+,\s*\w+\b/], [/\b\w+,\s*\w{2}\b/], [/\b\d{5}(-\d{4})?\b/] *)
Definition locationPatterns : list regex :=
  [ seq [WordB; plus [Cw]; chr ","; Star [Cs]; plus [Cw]; WordB];
    seq [WordB; plus [Cw]; chr ","; Star [Cs]; times 2 (Cls [Cw]); WordB];
    seq [WordB; times 5 digit; Opt (seq [chr "-"; times 4 digit]); WordB] ].

Definition isLocationLine (line : str) : bool :=
  existsb (fun pattern => test false pattern line) locationPatterns.

(** [/^[A-Z]/] *)
Definition startsUpper : regex := seq [Bol; Cls [CR (ch "A") (ch "Z")]].

Definition isJobTitle (line : str) : bool :=
  (5 <? length line) && (length line <? 100) && test false startsUpper line.

Definition isCompanyName (line : str) : bool :=
  (2 <? length line) && (length line <? 100).

(** [/\d{4}\s*-\s*\d{4}/], [/\d{1,2}\/\d{4}\s*-\s*\d{1,2}\/\d{4}/],
    [/\w+\s+\d{4}\s*-\s*\w+\s+\d{4}/], [/present|current/i] *)
Definition datePatterns : list (bool * regex) :=
  [ (false, seq [times 4 digit; Star [Cs]; chr "-"; Star [Cs]; times 4 digit]);
    (false, seq [rep 1 2 digit; chr "/"; times 4 digit; Star [Cs]; chr "-";
                 Star [Cs]; rep 1 2 digit; chr "/"; times 4 digit]);
    (false, seq [plus [Cw]; plus [Cs]; times 4 digit; Star [Cs]; chr "-";
                 Star [Cs]; plus [Cw]; plus [Cs]; times 4 digit]);
    (true, Alt (lit "present") (lit "current")) ].

Definition isDateRange (line : str) : bool :=
  existsb (fun p => test (fst p) (snd p) line) datePatterns.

(** [/[A-Za-z]/] *)
Definition anyLetter : regex := Cls [CR (ch "A") (ch "Z"); CR (ch "a") (ch "z")].

Definition isLocation (line : str) : bool :=
  (3 <? length line) && (length line <? 50) && test false anyLetter line.

Definition isProjectTitle (line : str) : bool :=
  (5 <? length line) && (length line <? 100) && test false startsUpper line.

(** [words.slice(0, 3)] is [firstn 3]. *)
Definition extractAchievementTitle (line : str) : str :=
  let words := split (ch " ") line in
  join (js " ") (firstn 3 words).

(** [/\b(19|20)\d{2}\b/] *)
Definition yearRegex : regex :=
  seq [WordB; Alt (lit "19") (lit "20"); times 2 digit; WordB].

Definition extractYear (line : str) : str :=
  match exec false yearRegex line with
  | Some m => m
  | None => []
  end.

(* ------------------------------------------------------------------ *)
(** ** Entry parsers that do not lower-case *)

(** [if (current) out.push(current)] *)
Definition flushEntry (A : Type) (out : list A) (current : option A) : list A :=
  match current with
  | Some e => out ++ [e]
  | None => out
  end.

Definition newExp (line : str) : Exp.t := Exp.mk line [] [] [] [].

(** The body of the [else if (currentExp)] branch. *)
Definition routeExp (e : Exp.t) (line : str) : Exp.t :=
  if isCompanyName line then
    Exp.mk (Exp.title e) line (Exp.date e) (Exp.companyLocation e) (Exp.accomplishment e)
  else if isDateRange line then
    Exp.mk (Exp.title e) (Exp.companyName e) line (Exp.companyLocation e) (Exp.accomplishment e)
  else if isLocation line then
    Exp.mk (Exp.title e) (Exp.companyName e) (Exp.date e) line (Exp.accomplishment e)
  else if 10 <? length line then
    Exp.mk (Exp.title e) (Exp.companyName e) (Exp.date e) (Exp.companyLocation e)
      (Exp.accomplishment e ++ [line])
  else e.

(** The [for] loop of [parseExperience] with its two variables, followed by
    the final push. *)
Fixpoint expLoop (content : list str) (experiences : list Exp.t)
    (currentExp : option Exp.t) : list Exp.t :=
  match content with
  | [] => flushEntry experiences currentExp
  | line :: rest =>
      if isJobTitle line then
        expLoop rest (flushEntry experiences currentExp) (Some (newExp line))
      else
        match currentExp with
        | Some e => expLoop rest experiences (Some (routeExp e line))
        | None => expLoop rest experiences None
        end
  end.

Definition parseExperience (content : list str) : list Exp.t :=
  expLoop content [] None.

Definition parseSkills (content : list str) : list str :=
  let text := join (js " ") content in
  let separators := [ch ","; 8226%N; 183%N; ch "|"; 10%N; ch ";"] in
  let skillItems :=
    fold_left (fun items sep => flat_map (split sep) items) separators [text] in
  filter (fun cleanSkill => (1 <? length cleanSkill) && (length cleanSkill <? 50))
    (map trim skillItems).

Definition parseAchievements (content : list str) : list Ach.t :=
  map (fun line => Ach.mk (extractAchievementTitle line) line)
    (filter (fun line => 10 <? length line) content).

Definition newProject (line : str) : Proj.t := Proj.mk line [] [].

Definition routeProject (p : Proj.t) (line : str) : Proj.t :=
  if isDateRange line then
    Proj.mk (Proj.title p) (Proj.description p) line
  else if 10 <? length line then
    Proj.mk (Proj.title p)
      (Proj.description p
       ++ (if truthy (Proj.description p) then js " " else []) ++ line)
      (Proj.duration p)
  else p.

Fixpoint projLoop (content : list str) (projects : list Proj.t)
    (currentProject : option Proj.t) : list Proj.t :=
  match content with
  | [] => flushEntry projects currentProject
  | line :: rest =>
      if isProjectTitle line then
        projLoop rest (flushEntry projects currentProject) (Some (newProject line))
      else
        match currentProject with
        | Some p => projLoop rest projects (Some (routeProject p line))
        | None => projLoop rest projects None
        end
  end.

Definition parseProjects (content : list str) : list Proj.t :=
  projLoop content [] None.

Definition parseCertifications (content : list str) : list Cert.t :=
  map (fun line => Cert.mk line [] (extractYear line))
    (filter (fun line => 5 <? length line) content).

Definition parseCourses (content : list str) : list Course.t :=
  map (fun line => Course.mk line [])
    (filter (fun line => 5 <? length line) content).

(* ------------------------------------------------------------------ *)
(** ** The Data Normalizer *)

(** [!s || s.trim() === ""] *)
Definition isBlank (s : str) : bool := isEmpty s || isEmpty (trim s).

(** [s && s.trim().length > 0] *)
Definition hasText (s : str) : bool := truthy s && (0 <? length (trim s)).

Definition orDefault (s : str) (placeholder : string) : str :=
  if isBlank s then js placeholder else s.

Definition cleanResumeData (resumeData : ResumeData) : ResumeData :=
  {| name := orDefault (name resumeData) "Your Name";
     role := orDefault (role resumeData) "Professional Role";
     phone := orDefault (phone resumeData) "123-456-7890";
     email := orDefault (email resumeData) "your.email@example.com";
     linkedin := linkedin resumeData;
     location := orDefault (location resumeData) "Your City, Country";
     summary := summary resumeData;
     experience := filter (fun exp => hasText (Exp.title exp)) (experience resumeData);
     education := filter (fun edu => hasText (Edu.degree edu)) (education resumeData);
     achievements :=
       filter (fun ach => hasText (Ach.keyAchievements ach)) (achievements resumeData);
     skills := filter hasText (skills resumeData);
     languages := filter hasText (languages resumeData);
     projects := filter (fun proj => hasText (Proj.title proj)) (projects resumeData);
     courses := courses resumeData;
     certifications := certifications resumeData |}.

(* ------------------------------------------------------------------ *)
(** ** The parser proper, over a given [toLowerCase] *)

Inductive result (A : Type) : Type :=
| Ok (value : A)
| Err (message : str).          (* throw new Error(message) *)
Arguments Ok {A} value.
Arguments Err {A} message.

(** What the parser asks of the outside world. *)
Record Host : Type := mkHost {
  readFileUtf8 : str -> result str;        (* fs.readFile(path, "utf8") *)
  readFileRaw : str -> result (list N);    (* fs.readFile(path) *)
  pdfText : list N -> result str;          (* (await pdf(buffer)).text *)
  extractRawText : str -> result str       (* (await mammoth.extractRawText({path})).value *)
}.

Definition emptyResume : ResumeData :=
  mkResume [] [] [] [] [] [] [] [] [] [] [] [] [] [] [].

(** [/\b[A-Za-z0-9._%+-]+@[A-Za-z0-9.-]+\.[A-Z|a-z]{2,}\b/] *)
Definition emailRegex : regex :=
  seq [WordB;
       plus [CR (ch "A") (ch "Z"); CR (ch "a") (ch "z"); CR (ch "0") (ch "9");
             CU (ch "."); CU (ch "_"); CU (ch "%"); CU (ch "+"); CU (ch "-")];
       chr "@";
       plus [CR (ch "A") (ch "Z"); CR (ch "a") (ch "z"); CR (ch "0") (ch "9");
             CU (ch "."); CU (ch "-")];
       chr ".";
       atLeast 2 [CR (ch "A") (ch "Z"); CU (ch "|"); CR (ch "a") (ch "z")];
       WordB].

(** [/(\+\d{1,3}[-.\s]?)?\(?\d{3}\)?[-.\s]?\d{3}[-.\s]?\d{4}/] *)
Definition phoneSep : regex := Opt (Cls [CU (ch "-"); CU (ch "."); Cs]).
Definition phoneRegex : regex :=
  seq [Opt (seq [chr "+"; rep 1 3 digit; phoneSep]);
       Opt (chr "("); times 3 digit; Opt (chr ")"); phoneSep;
       times 3 digit; phoneSep; times 4 digit].

(** [/(linkedin\.com\/in\/[\w-]+|linkedin\.com\/pub\/[\w-]+)/i] *)
Definition linkedinRegex : regex :=
  Alt (seq [lit "linkedin.com/in/"; plus [Cw; CU (ch "-")]])
      (seq [lit "linkedin.com/pub/"; plus [Cw; CU (ch "-")]]).

(** The section keyword table, in the order [Object.entries] walks it. *)
Definition sectionKeywords : list (str * list str) :=
  [ (js "summary", [js "summary"; js "profile"; js "objective"; js "about"]);
    (js "experience", [js "experience"; js "employment"; js "work history";
                       js "career"; js "professional experience"]);
    (js "education", [js "education"; js "academic"; js "qualification"; js "degree"]);
    (js "skills", [js "skills"; js "technical skills"; js "competencies"; js "expertise"]);
    (js "achievements", [js "achievements"; js "accomplishments"; js "awards";
                         js "recognition"]);
    (js "projects", [js "projects"; js "portfolio"; js "work samples"]);
    (js "certifications", [js "certifications"; js "certificates"; js "licenses"]);
    (js "courses", [js "courses"; js "training"; js "coursework"]) ].

(** The inner [for] of [detectSectionHeader]. *)
Fixpoint scanKeywords (line : str) (keywords : list str) : bool :=
  match keywords with
  | [] => false
  | keyword :: rest =>
      if includes line keyword && (length line <? 50) then true
      else scanKeywords line rest
  end.

Fixpoint detectSectionHeader (line : str) (table : list (str * list str))
  : option str :=
  match table with
  | [] => None
  | (section, keywords) :: rest =>
      if scanKeywords line keywords then Some section
      else detectSectionHeader line rest
  end.

(** [if (detectedSection)]: neither [null] nor the empty string. *)
Definition detected (d : option str) : option str :=
  match d with
  | Some (c :: s) => Some (c :: s)
  | _ => None
  end.

(** The state of the loop of [extractSections]: its two variables and the
    record being filled. *)
Record SegState : Type := mkSeg {
  currentSection : str;
  sectionContent : list str;
  resume : ResumeData
}.

Section Parser.
Variable toLowerCase : str -> str.

Definition hasKeyword (keywords : list string) (line : str) : bool :=
  existsb (fun keyword => includes (toLowerCase line) (js keyword)) keywords.

Definition isRoleLine (line : str) : bool :=
  hasKeyword ["developer"; "engineer"; "manager"; "analyst"; "designer";
              "consultant"; "specialist"]%string line.

Definition isDegree (line : str) : bool :=
  hasKeyword ["bachelor"; "master"; "phd"; "doctorate"; "associate";
              "diploma"; "certificate"]%string line.

Definition isInstitution (line : str) : bool :=
  hasKeyword ["university"; "college"; "institute"; "school"]%string line
  || ((5 <? length line) && (length line <? 100)).

Definition newEdu (line : str) : Edu.t := Edu.mk line [] [] [].

Definition routeEdu (e : Edu.t) (line : str) : Edu.t :=
  if isInstitution line then
    Edu.mk (Edu.degree e) line (Edu.duration e) (Edu.location e)
  else if isDateRange line then
    Edu.mk (Edu.degree e) (Edu.institution e) line (Edu.location e)
  else if isLocation line then
    Edu.mk (Edu.degree e) (Edu.institution e) (Edu.duration e) line
  else e.

Fixpoint eduLoop (content : list str) (education : list Edu.t)
    (currentEdu : option Edu.t) : list Edu.t :=
  match content with
  | [] => flushEntry education currentEdu
  | line :: rest =>
      if isDegree line then
        eduLoop rest (flushEntry education currentEdu) (Some (newEdu line))
      else
        match currentEdu with
        | Some e => eduLoop rest education (Some (routeEdu e line))
        | None => eduLoop rest education None
        end
  end.

Definition parseEducation (content : list str) : list Edu.t :=
  eduLoop content [] None.

(** The [switch] of [processSectionContent]; an unknown name changes
    nothing. *)
Definition processSectionContent (section : str) (content : list str)
    (resumeData : ResumeData) : ResumeData :=
  let text := trim (join (js " ") content) in
  if str_eqb section (js "summary") then set_summary text resumeData
  else if str_eqb section (js "experience") then
    set_experience (parseExperience content) resumeData
  else if str_eqb section (js "education") then
    set_education (parseEducation content) resumeData
  else if str_eqb section (js "skills") then
    set_skills (parseSkills content) resumeData
  else if str_eqb section (js "achievements") then
    set_achievements (parseAchievements content) resumeData
  else if str_eqb section (js "projects") then
    set_projects (parseProjects content) resumeData
  else if str_eqb section (js "certifications") then
    set_certifications (parseCertifications content) resumeData
  else if str_eqb section (js "courses") then
    set_courses (parseCourses content) resumeData
  else resumeData.

(** [if (currentSection && sectionContent.length > 0) processSectionContent(...)] *)
Definition flushSection (st : SegState) : ResumeData :=
  if truthy (currentSection st) && (0 <? length (sectionContent st)) then
    processSectionContent (currentSection st) (sectionContent st) (resume st)
  else resume st.

(** One turn of the loop of [extractSections]. *)
Definition segStep (st : SegState) (line : str) : SegState :=
  let lowerLine := toLowerCase line in
  match detected (detectSectionHeader lowerLine sectionKeywords) with
  | Some detectedSection => mkSeg detectedSection [] (flushSection st)
  | None =>
      if truthy (currentSection st) then
        mkSeg (currentSection st) (sectionContent st ++ [line]) (resume st)
      else st
  end.

Definition extractSections (lines : list str) (resumeData : ResumeData)
  : ResumeData :=
  flushSection (fold_left segStep lines (mkSeg [] [] resumeData)).

(** One turn of the contact loop of [extractBasicInfo]. *)
Definition contactStep (resumeData : ResumeData) (line : str) : ResumeData :=
  let r1 :=
    match exec false emailRegex line with
    | Some m => if isEmpty (email resumeData) then set_email m resumeData
                else resumeData
    | None => resumeData
    end in
  let r2 :=
    match exec false phoneRegex line with
    | Some m => if isEmpty (phone r1) then set_phone m r1 else r1
    | None => r1
    end in
  let r3 :=
    match exec true linkedinRegex line with
    | Some m => if isEmpty (linkedin r2) then set_linkedin (js "https://" ++ m) r2
                else r2
    | None => r2
    end in
  if isEmpty (location r3) && isLocationLine line then set_location line r3
  else r3.

(** The role loop, which stops at its first hit. *)
Fixpoint roleLoop (candidates : list str) (resumeData : ResumeData)
  : ResumeData :=
  match candidates with
  | [] => resumeData
  | line :: rest =>
      if isRoleLine line && isEmpty (role resumeData) then set_role line resumeData
      else roleLoop rest resumeData
  end.

(** The contact loop runs over [lines[0 .. min(10, n) - 1]], the role loop
    over [lines[1 .. min(5, n) - 1]]. *)
Definition extractBasicInfo (lines : list str) (resumeData : ResumeData)
  : ResumeData :=
  let r0 :=
    match lines with
    | first :: _ => set_name first resumeData
    | [] => resumeData
    end in
  let r1 := fold_left contactStep (firstn 10 lines) r0 in
  roleLoop (firstn 4 (tl lines)) r1.

(** [text.split('\n').map(line => line.trim()).filter(line => line.length > 0)] *)
Definition textLines (text : str) : list str :=
  filter (fun line => 0 <? length line) (map trim (split 10%N text)).

Definition parseTextToStructuredData (text : str) : ResumeData :=
  let lines := textLines text in
  cleanResumeData (extractSections lines (extractBasicInfo lines emptyResume)).

Variable host : Host.

Definition extractFromPDF (filePath : str) : result str :=
  match readFileRaw host filePath with
  | Ok dataBuffer =>
      match pdfText host dataBuffer with
      | Ok text => Ok text
      | Err message => Err (js "Failed to extract text from PDF: " ++ message)
      end
  | Err message => Err (js "Failed to extract text from PDF: " ++ message)
  end.

Definition extractFromWord (filePath : str) : result str :=
  match extractRawText host filePath with
  | Ok value => Ok value
  | Err message =>
      Err (js "Failed to extract text from Word document: " ++ message)
  end.

(** The [switch] on the media type: the text to parse, or the error. *)
Definition extractText (filePathOrContent mimeType : str) : result str :=
  if str_eqb mimeType (js "application/pdf") then extractFromPDF filePathOrContent
  else if str_eqb mimeType (js "application/msword")
       || str_eqb mimeType
            (js "application/vnd.openxmlformats-officedocument.wordprocessingml.document")
  then extractFromWord filePathOrContent
  else if str_eqb mimeType (js "text/plain") then
    if negb (includes filePathOrContent (js "/"))
       && negb (includes filePathOrContent [92%N])
    then Ok filePathOrContent
    else readFileUtf8 host filePathOrContent
  else Err (js "Unsupported file type: " ++ mimeType).

(** What follows the [switch]. *)
Definition parseBody (textContent : str) : result ResumeData :=
  if isEmpty textContent || (length (trim textContent) =? 0) then
    Err (js "No readable content found in the file")
  else Ok (parseTextToStructuredData textContent).

Definition parseResumeContent (filePathOrContent mimeType : str)
  : result ResumeData :=
  match extractText filePathOrContent mimeType with
  | Ok textContent => parseBody textContent
  | Err message => Err message
  end.
End Parser.

(* ------------------------------------------------------------------ *)
(** ** Definitions used to state the properties *)

(** A lower bound on the length of what a pattern matches. *)
Fixpoint minLen (r : regex) : nat :=
  match r with
  | Eps => 0
  | Cls _ => 1
  | Seq a b => minLen a + minLen b
  | Alt a b => Nat.min (minLen a) (minLen b)
  | Opt _ => 0
  | Star _ => 0
  | Bol => 0
  | WordB => 0
  end.

(** The last element of a list, or a default. *)
Definition lastOr (A : Type) (d : A) (l : list A) : A :=
  fold_left (fun _ x => x) l d.

(** The lines up to the next line that starts an entry. *)
Fixpoint bodyOf (starts : str -> bool) (content : list str) : list str :=
  match content with
  | [] => []
  | line :: rest => if starts line then [] else line :: bodyOf starts rest
  end.

(** A section body cut into entries: each line that starts an entry, with
    the lines that follow it up to the next such line.  The lines before the
    first start belong to no entry. *)
Fixpoint groupsOf (starts : str -> bool) (content : list str)
  : list (str * list str) :=
  match content with
  | [] => []
  | line :: rest =>
      if starts line then (line, bodyOf starts rest) :: groupsOf starts rest
      else groupsOf starts rest
  end.

(** An experience entry described by lengths alone: the company name is the
    last line of the body whose length is strictly between 2 and 100, the
    date and the accomplishments come from lines of length 100 or more, and
    the location stays empty. *)
Definition expEntry (g : str * list str) : Exp.t :=
  let body := snd g in
  Exp.mk (fst g)
    (lastOr [] (filter (fun l => (2 <? length l) && (length l <? 100)) body))
    (lastOr [] (filter (fun l => (100 <=? length l) && isDateRange l) body))
    []
    (filter (fun l => (100 <=? length l) && negb (isDateRange l)) body).

(** The header rule in one sentence: a line under 50 code units is a header
    of the first section of the table one of whose keywords it contains. *)
Definition headerOf (table : list (str * list str)) (line : str) : option str :=
  if length line <? 50 then
    option_map fst
      (find (fun entry => existsb (fun keyword => includes line keyword) (snd entry))
            table)
  else None.

(** Two lower-casing functions that agree on every line of a list. *)
Definition agree_on (f g : str -> str) (lines : list str) : Prop :=
  forall l, In l lines -> f l = g l.

(** A text given by its lines. *)
Definition unlines (lines : list string) : str := join [10%N] (map js lines).

Definition textPlain : str := js "text/plain".

Definition emptyContentMessage : str := js "No readable content found in the file".

Definition scenarioA : str :=
  unlines ["Jane Doe"; "Software Engineer"; "jane@x.com"; "555-123-4567";
           "EDUCATION"; "Bachelor of Science"; "MIT"; "2018-2022"]%string.

Definition scenarioB : str :=
  unlines ["SKILLS"; "Python, Go; Rust | Docker"]%string.

Definition scenarioD_body : list str :=
  [js "Project Alpha"; js "6 months"; js "Built a thing."].

Definition scenarioD : str :=
  unlines ["PROJECTS"; "Project Alpha"; "6 months"; "Built a thing."]%string.

(** A host with no file at all. *)
Definition noFiles : Host :=
  mkHost (fun _ => Err (js "ENOENT")) (fun _ => Err (js "ENOENT"))
         (fun _ => Err (js "Invalid PDF structure")) (fun _ => Err (js "ENOENT")).

(** A host whose every path reads as the same text file. *)
Definition oneFile (content : str) : Host :=
  mkHost (fun _ => Ok content) (fun _ => Err (js "ENOENT"))
         (fun _ => Err (js "Invalid PDF structure")) (fun _ => Err (js "ENOENT")).

(** [toLowerCase] on strings of ASCII code units and U+0130 (capital I with
    dot above): the lower case of U+0130 is i followed by U+0307, two code
    units for one. *)
Definition lowerDottedI (s : str) : str :=
  flat_map (fun c => if (c =? 304)%N then [105%N; 775%N] else [lowerUnit c]) s.

(** "Technical skills (Istanbul office): Go, Rust, SQL", written with
    U+0130: 49 code units, 50 once lower-cased. *)
Definition dottedLine : str :=
  js "Technical skills (" ++ [304%N] ++ js "stanbul office): Go, Rust, SQL".

(* ------------------------------------------------------------------ *)
(** ** The upload filter of the controller *)

(** [fileFilter] of the upload controller: [cb(null, true)] for an allowed
    media type, [cb(new Error(...), false)] for any other. *)
Definition allowedTypes : list str :=
  [js "application/pdf"; js "application/msword";
   js "application/vnd.openxmlformats-officedocument.wordprocessingml.document";
   js "text/plain"].

Definition fileFilter (mimetype : str) : result bool :=
  if existsb (str_eqb mimetype) allowedTypes then Ok true
  else Err (js "Invalid file type. Only PDF, DOC, DOCX, and TXT files are allowed.").

(* ------------------------------------------------------------------ *)
(** ** The completeness methods of the Resume model

    The methods read ten fields of the stored document; these have the names
    and the types of the parser's record, so the record stands for the
    document.  A JavaScript Number is a binary64 floating-point number. *)

Definition number := PrimFloat.float.

(** An integer small enough to be a Number exactly. *)
Definition numberOfNat (n : nat) : number :=
  PrimFloat.of_uint63 (Uint63.of_Z (Z.of_nat n)).

(** [Math.round]: the integer closest to a finite Number, a tie going to the
    larger one; computed on the exact value [(-1)^s * m * 2^e]. *)
Definition Math_round (x : number) : option Z :=
  match FloatOps.Prim2SF x with
  | SpecFloat.S754_zero _ => Some 0%Z
  | SpecFloat.S754_finite s m e =>
      let sm := if s then Z.neg m else Z.pos m in
      Some (if (0 <=? e)%Z then (sm * 2 ^ e)%Z
            else let d := (2 ^ (- e))%Z in ((2 * sm + d) / (2 * d))%Z)
  | _ => None
  end.

Definition isComplete (doc : ResumeData) : bool :=
  truthy (name doc) && truthy (email doc) && truthy (phone doc)
  && truthy (role doc) && truthy (summary doc)
  && (0 <? length (experience doc)) && (0 <? length (education doc)).

(** The value of [score] after the ten [if (...) score++]. *)
Definition completenessScore (doc : ResumeData) : nat :=
  Nat.b2n (truthy (name doc)) + Nat.b2n (truthy (email doc))
  + Nat.b2n (truthy (phone doc)) + Nat.b2n (truthy (role doc))
  + Nat.b2n (truthy (summary doc)) + Nat.b2n (0 <? length (experience doc))
  + Nat.b2n (0 <? length (education doc)) + Nat.b2n (0 <? length (skills doc))
  + Nat.b2n (0 <? length (achievements doc)) + Nat.b2n (0 <? length (projects doc)).

(** [Math.round((score / totalFields) * 100)] *)
Definition getCompletenessPercentage (doc : ResumeData) : option Z :=
  let score := completenessScore doc in
  let totalFields := 10 in
  Math_round (PrimFloat.mul (PrimFloat.div (numberOfNat score) (numberOfNat totalFields))
                (numberOfNat 100)).

(* ------------------------------------------------------------------ *)
(** ** More definitions used to state properties *)

(** The strings a pattern can match, assertions aside. *)
Fixpoint lang (icase : bool) (r : regex) (w : str) : Prop :=
  match r with
  | Eps => w = []
  | Cls c => exists x, w = [x] /\ cls_mem icase c x = true
  | Seq a b => exists u v, w = u ++ v /\ lang icase a u /\ lang icase b v
  | Alt a b => lang icase a w \/ lang icase b w
  | Opt a => w = [] \/ lang icase a w
  | Star c => forallb (cls_mem icase c) w = true
  | Bol => w = []
  | WordB => w = []
  end.

(** A lower bound on the number of digits in what a pattern matches: the
    positions the pattern fills with [\d]. *)
Fixpoint minDigits (r : regex) : nat :=
  match r with
  | Cls [Cd] => 1
  | Seq a b => minDigits a + minDigits b
  | Alt a b => Nat.min (minDigits a) (minDigits b)
  | _ => 0
  end.

(** The match of a pattern in the first line of a list that has one. *)
Fixpoint firstExec (icase : bool) (r : regex) (lines : list str) : option str :=
  match lines with
  | [] => None
  | line :: rest =>
      match exec icase r line with
      | Some m => Some m
      | None => firstExec icase r rest
      end
  end.

Definition orEmpty (o : option str) : str :=
  match o with
  | Some s => s
  | None => []
  end.

(** An education entry described line by line: the institution is the last
    line of the body that [isInstitution] takes, the duration the last of the
    other lines that is a date range, the location the last of the remaining
    ones that [isLocation] takes. *)
Definition eduEntry (toLowerCase : str -> str) (g : str * list str) : Edu.t :=
  let body := snd g in
  Edu.mk (fst g)
    (lastOr [] (filter (isInstitution toLowerCase) body))
    (lastOr [] (filter (fun l => negb (isInstitution toLowerCase l) && isDateRange l)
                  body))
    (lastOr [] (filter (fun l => negb (isInstitution toLowerCase l)
                                 && negb (isDateRange l) && isLocation l) body)).

(** A project entry described line by line: the duration is the last date
    range of the body, the description the other lines of more than 10 code
    units, joined by single spaces. *)
Definition projEntry (g : str * list str) : Proj.t :=
  let body := snd g in
  Proj.mk (fst g)
    (join (js " ") (filter (fun l => negb (isDateRange l) && (10 <? length l)) body))
    (lastOr [] (filter isDateRange body)).

(** The separators of [parseSkills], in the order it splits on them. *)
Definition skillSeparators : list N :=
  [ch ","; 8226%N; 183%N; ch "|"; 10%N; ch ";"].

(** [p] is a prefix of [s]. *)
Definition prefixOf (p s : str) : Prop := exists rest, s = p ++ rest.

(** [m] occurs in [s]. *)
Definition occursIn (m s : str) : Prop := exists before after, s = before ++ m ++ after.

(** The code units below 128 are lowered by any [toLowerCase] as
    [asciiLower] lowers them. *)
Lemma asciiLower_lowers_ascii : lowers_ascii asciiLower.
Proof. intros s _. reflexivity. Qed.

(* ------------------------------------------------------------------ *)
(** ** Sanity checks of the matcher against the engine *)

Example email_match :
  map (exec false emailRegex)
      [js "mail me: <john.doe@mail.example.org>."; js "a@b.c"; js "x@y.zz|w"]
  = [Some (js "john.doe@mail.example.org"); None; Some (js "x@y.zz|w")].
Proof. vm_compute. reflexivity. Qed.

Example phone_match :
  map (exec false phoneRegex)
      [js "tel +1 (555) 123-4567 ext"; js "5551234567"; js "12345 6789"]
  = [Some (js "+1 (555) 123-4567"); Some (js "5551234567"); None].
Proof. vm_compute. reflexivity. Qed.

Example linkedin_match :
  map (exec true linkedinRegex)
      [js "see LinkedIn.com/in/jane-doe/x"; js "linkedin.com/pub/"]
  = [Some (js "LinkedIn.com/in/jane-doe"); None].
Proof. vm_compute. reflexivity. Qed.

Example location_lines :
  map isLocationLine [js "Boston, MA"; js "Boston"; js "zip 12345"; js "zip 123456"]
  = [true; false; true; false].
Proof. vm_compute. reflexivity. Qed.

Example date_ranges :
  map isDateRange
      [js "Present"; js "Jan 2020 - Dec 2023"; js "1/2020-2/2021"; js "2020-21";
       js "6 months"]
  = [true; true; true; false; false].
Proof. vm_compute. reflexivity. Qed.

Example year_of :
  map extractYear [js "AWS Certified (2021)"; js "issued 12021"; js "No year"]
  = [js "2021"; []; []].
Proof. vm_compute. reflexivity. Qed.

(* ------------------------------------------------------------------ *)
(** ** Strings: trimming and splitting *)

Lemma trimStart_nil_iff (s : str) :
  trimStart s = [] <-> forallb isWhiteSpace s = true.
Proof.
  induction s as [|c s IH]; simpl.
  - tauto.
  - destruct (isWhiteSpace c); simpl.
    + exact IH.
    + split; discriminate.
Qed.

Lemma forallb_rev (A : Type) (f : A -> bool) (l : list A) :
  forallb f (rev l) = forallb f l.
Proof.
  induction l as [|x l IH]; simpl; auto.
  rewrite forallb_app, IH. simpl. rewrite andb_true_r. apply andb_comm.
Qed.

Lemma trimStart_fixed (s : str) : trimStart (trimStart s) = trimStart s.
Proof.
  induction s as [|c s IH]; simpl; auto.
  destruct (isWhiteSpace c) eqn:E; auto.
  simpl. rewrite E. reflexivity.
Qed.

(** A string trims to the empty string exactly when it is all white space. *)
Lemma trim_nil_iff (s : str) : trim s = [] <-> forallb isWhiteSpace s = true.
Proof.
  unfold trim, trimEnd. split.
  - intro H.
    assert (H1 : trimStart (rev (trimStart s)) = []).
    { apply (f_equal (@rev N)) in H. rewrite rev_involutive in H. exact H. }
    apply trimStart_nil_iff in H1. rewrite forallb_rev in H1.
    apply trimStart_nil_iff in H1. rewrite trimStart_fixed in H1.
    apply trimStart_nil_iff. exact H1.
  - intro H. apply trimStart_nil_iff in H. rewrite H. reflexivity.
Qed.

Lemma split_all_space (sep : N) (s : str) :
  isWhiteSpace sep = true ->
  Forall (fun l => forallb isWhiteSpace l = true) (split sep s) ->
  forallb isWhiteSpace s = true.
Proof.
  intros Hsep. induction s as [|c s IH]; simpl; auto.
  destruct (N.eqb_spec c sep) as [->|Hne].
  - intro H. inversion H; subst. rewrite Hsep. simpl. auto.
  - destruct (split sep s) as [|h t] eqn:E.
    + intro H. inversion H as [|? ? Hc _]; subst. simpl in Hc.
      rewrite andb_true_r in Hc. rewrite Hc. simpl. apply IH. constructor.
    + intro H. inversion H as [|? ? Hc Ht]; subst. simpl in Hc.
      apply andb_true_iff in Hc. destruct Hc as [Hc Hh]. rewrite Hc. simpl.
      apply IH. constructor; assumption.
Qed.

(** No line is left after filtering exactly when the text trims to nothing. *)
Lemma textLines_nil_trim (text : str) : textLines text = [] -> trim text = [].
Proof.
  unfold textLines. intro H. apply trim_nil_iff.
  apply split_all_space with (sep := 10%N); [reflexivity|].
  apply Forall_forall. intros l Hl. apply trim_nil_iff.
  destruct (trim l) as [|c t] eqn:E; auto.
  assert (Hin : In (trim l)
                  (filter (fun line => 0 <? length line) (map trim (split 10%N text)))).
  { apply filter_In. split; [apply in_map; exact Hl|]. rewrite E. reflexivity. }
  rewrite H in Hin. destruct Hin.
Qed.

Lemma filter_idem (A : Type) (f : A -> bool) (l : list A) :
  filter f (filter f l) = filter f l.
Proof.
  induction l as [|x l IH]; simpl; auto.
  destruct (f x) eqn:E; simpl; [rewrite E, IH|]; auto.
Qed.

(* ------------------------------------------------------------------ *)
(** ** The normalizer *)

Lemma isBlank_false_nonempty (s : str) : isBlank s = false -> s <> [].
Proof. intros H ->. discriminate. Qed.

Lemma orDefault_not_blank (s : str) (p : string) :
  isBlank (js p) = false -> isBlank (orDefault s p) = false.
Proof.
  intro Hp. unfold orDefault. destruct (isBlank s) eqn:E; auto.
Qed.

Lemma orDefault_idem (s : str) (p : string) :
  isBlank (js p) = false -> orDefault (orDefault s p) p = orDefault s p.
Proof.
  intro Hp. unfold orDefault at 1. rewrite orDefault_not_blank; auto.
Qed.

(** C8. The Data Normalizer is idempotent: normalizing a record that was
    already normalized gives the same record, for every record. *)
Theorem cleanResumeData_idempotent (r : ResumeData) :
  cleanResumeData (cleanResumeData r) = cleanResumeData r.
Proof.
  unfold cleanResumeData; simpl.
  rewrite !orDefault_idem by reflexivity.
  rewrite !filter_idem. reflexivity.
Qed.

(** After normalization each required field is its placeholder when it was
    blank and is unchanged otherwise; either way it is not empty. *)
Lemma cleanResumeData_required (r : ResumeData) :
  let c := cleanResumeData r in
  name c <> [] /\ email c <> [] /\ phone c <> [] /\ role c <> [] /\ location c <> [].
Proof.
  simpl. repeat split; apply isBlank_false_nonempty, orDefault_not_blank; reflexivity.
Qed.

Lemma parseResumeContent_Ok (toLowerCase : str -> str) (host : Host)
    (input mime : str) (r : ResumeData) :
  parseResumeContent toLowerCase host input mime = Ok r ->
  exists text,
    extractText host input mime = Ok text
    /\ trim text <> []
    /\ r = parseTextToStructuredData toLowerCase text.
Proof.
  unfold parseResumeContent, parseBody.
  destruct (extractText host input mime) as [text|m]; [|discriminate].
  destruct (isEmpty text || (length (trim text) =? 0)) eqn:E; [discriminate|].
  intro H. injection H as <-. exists text. repeat split; auto.
  apply orb_false_iff in E. destruct E as [_ E]. intro Ht. rewrite Ht in E.
  discriminate.
Qed.

(** C5. Whenever parsing returns a record, its [name], [email], [phone],
    [role] and [location] are non-empty strings: each is the value found in
    the text or, when that value is blank, the fixed placeholder. *)
Theorem required_fields_never_empty (toLowerCase : str -> str) (host : Host)
    (input mime : str) (r : ResumeData) :
  parseResumeContent toLowerCase host input mime = Ok r ->
  (name r <> [] /\ email r <> [] /\ phone r <> [] /\ role r <> []
   /\ location r <> [])
  /\ exists text raw,
       extractText host input mime = Ok text
       /\ raw = extractSections toLowerCase (textLines text)
                  (extractBasicInfo toLowerCase (textLines text) emptyResume)
       /\ name r = (if isBlank (name raw) then js "Your Name" else name raw)
       /\ email r = (if isBlank (email raw) then js "your.email@example.com"
                     else email raw)
       /\ phone r = (if isBlank (phone raw) then js "123-456-7890" else phone raw)
       /\ role r = (if isBlank (role raw) then js "Professional Role" else role raw)
       /\ location r = (if isBlank (location raw) then js "Your City, Country"
                        else location raw).
Proof.
  intro H. apply parseResumeContent_Ok in H. destruct H as (text & Hx & _ & ->).
  split.
  - apply cleanResumeData_required.
  - exists text. eexists. split; [exact Hx|]. split; [reflexivity|].
    repeat split.
Qed.

Lemma required_fields_never_empty_witness :
  exists r,
    parseResumeContent asciiLower noFiles (js "??") textPlain = Ok r
    /\ name r = js "??" /\ email r = js "your.email@example.com"
    /\ name r <> [] /\ email r <> [] /\ phone r <> [] /\ role r <> []
    /\ location r <> [].
Proof.
  eexists. split; [vm_compute; reflexivity|].
  split; [reflexivity|]. split; [reflexivity|].
  exact (proj1 (required_fields_never_empty asciiLower noFiles (js "??") textPlain
                  eq_refl)).
Defined.

(* ------------------------------------------------------------------ *)
(** ** The languages field *)

Lemma processSectionContent_languages (toLowerCase : str -> str)
    (section : str) (content : list str) (r : ResumeData) :
  languages (processSectionContent toLowerCase section content r) = languages r.
Proof.
  unfold processSectionContent.
  repeat match goal with
         | |- context [if ?b then _ else _] => destruct b
         end; reflexivity.
Qed.

Lemma flushSection_languages (toLowerCase : str -> str) (st : SegState) :
  languages (flushSection toLowerCase st) = languages (resume st).
Proof.
  unfold flushSection.
  destruct (truthy (currentSection st) && (0 <? length (sectionContent st)));
    auto using processSectionContent_languages.
Qed.

Lemma segStep_languages (toLowerCase : str -> str) (st : SegState) (line : str) :
  languages (resume (segStep toLowerCase st line)) = languages (resume st).
Proof.
  unfold segStep.
  destruct (detected (detectSectionHeader (toLowerCase line) sectionKeywords)).
  - apply flushSection_languages.
  - destruct (truthy (currentSection st)); reflexivity.
Qed.

Lemma extractSections_languages (toLowerCase : str -> str) (lines : list str)
    (r : ResumeData) :
  languages (extractSections toLowerCase lines r) = languages r.
Proof.
  unfold extractSections. rewrite flushSection_languages.
  change (languages r) with (languages (resume (mkSeg [] [] r))).
  generalize (mkSeg [] [] r). induction lines as [|l lines IH]; intro st; simpl.
  - reflexivity.
  - rewrite IH. apply segStep_languages.
Qed.

Lemma contactStep_languages (r : ResumeData) (line : str) :
  languages (contactStep r line) = languages r.
Proof.
  unfold contactStep.
  repeat match goal with
         | |- context [match ?x with _ => _ end] => destruct x; simpl
         end; reflexivity.
Qed.

Lemma roleLoop_languages (toLowerCase : str -> str) (candidates : list str)
    (r : ResumeData) :
  languages (roleLoop toLowerCase candidates r) = languages r.
Proof.
  induction candidates as [|l ls IH]; simpl; auto.
  destruct (isRoleLine toLowerCase l && isEmpty (role r)); auto.
Qed.

Lemma extractBasicInfo_languages (toLowerCase : str -> str) (lines : list str)
    (r : ResumeData) :
  languages (extractBasicInfo toLowerCase lines r) = languages r.
Proof.
  unfold extractBasicInfo. rewrite roleLoop_languages.
  assert (H : forall ls r0, languages (fold_left contactStep ls r0) = languages r0).
  { induction ls as [|l ls IH]; intro r0; simpl; auto.
    rewrite IH. apply contactStep_languages. }
  rewrite H. destruct lines; reflexivity.
Qed.

(** C10. The [languages] field of the record the parser returns is the empty
    sequence, for every text and every way of reaching the parser: the field
    starts empty, no section of the keyword table is named languages, and no
    step assigns it anything else. *)
Theorem languages_always_empty (toLowerCase : str -> str) :
  (forall text, languages (parseTextToStructuredData toLowerCase text) = [])
  /\ (forall host input mime r,
        parseResumeContent toLowerCase host input mime = Ok r -> languages r = [])
  /\ languages emptyResume = []
  /\ ~ In (js "languages") (map fst sectionKeywords)
  /\ (forall section content r,
        languages (processSectionContent toLowerCase section content r)
        = languages r).
Proof.
  assert (Hk : ~ In (js "languages") (map fst sectionKeywords)).
  { simpl. intros H. repeat (destruct H as [H | H]; [discriminate H|]). exact H. }
  assert (H : forall text, languages (parseTextToStructuredData toLowerCase text) = []).
  { intro text. unfold parseTextToStructuredData. simpl.
    rewrite extractSections_languages, extractBasicInfo_languages. reflexivity. }
  split; [exact H|].
  split; [|split; [reflexivity|split; [exact Hk|]]].
  - intros host input mime r Hr. apply parseResumeContent_Ok in Hr.
    destruct Hr as (text & _ & _ & ->). apply H.
  - apply processSectionContent_languages.
Qed.

Lemma languages_always_empty_witness :
  exists r,
    parseResumeContent asciiLower noFiles (js "Languages: English, French") textPlain
    = Ok r
    /\ languages r = [].
Proof.
  eexists. split; [vm_compute; reflexivity|].
  exact (proj1 (proj2 (languages_always_empty asciiLower)) noFiles
           (js "Languages: English, French") textPlain _ eq_refl).
Defined.

(* ------------------------------------------------------------------ *)
(** ** Empty content *)

(** C6. A zero-length text is refused with the empty-content error, and so
    is every extracted text that has no non-empty line: no record is
    returned. *)
Theorem empty_content_is_an_error (toLowerCase : str -> str) (host : Host) :
  parseResumeContent toLowerCase host [] textPlain = Err emptyContentMessage
  /\ (forall input mime text,
        extractText host input mime = Ok text ->
        textLines text = [] ->
        parseResumeContent toLowerCase host input mime = Err emptyContentMessage).
Proof.
  split; [reflexivity|].
  intros input mime text Hx Hl. unfold parseResumeContent. rewrite Hx.
  unfold parseBody. rewrite (textLines_nil_trim _ Hl). simpl.
  rewrite orb_true_r. reflexivity.
Qed.

Lemma empty_content_is_an_error_witness :
  extractText noFiles [32%N; 10%N; 9%N; 160%N] textPlain = Ok [32%N; 10%N; 9%N; 160%N]
  /\ textLines [32%N; 10%N; 9%N; 160%N] = []
  /\ parseResumeContent asciiLower noFiles [32%N; 10%N; 9%N; 160%N] textPlain
     = Err emptyContentMessage.
Proof.
  split; [reflexivity|]. split; [reflexivity|].
  exact (proj2 (empty_content_is_an_error asciiLower noFiles)
           [32%N; 10%N; 9%N; 160%N] textPlain [32%N; 10%N; 9%N; 160%N]
           eq_refl eq_refl).
Defined.

(* ------------------------------------------------------------------ *)
(** ** Plain text: content or path *)

(** With the media type [text/plain], a string that holds a slash is read as
    a path: with no such file the call fails, and with a file there the
    record is the file's, not the string's.  So the result is not the parse
    of the string itself, and it depends on the file system. *)
Lemma plain_text_with_slash_is_a_path :
  parseResumeContent asciiLower noFiles (js "Jane Doe, C/C++ developer") textPlain
  = Err (js "ENOENT")
  /\ parseResumeContent asciiLower (oneFile (js "John Roe"))
       (js "Jane Doe, C/C++ developer") textPlain
     = Ok (parseTextToStructuredData asciiLower (js "John Roe"))
  /\ ~ (forall host input,
          parseResumeContent asciiLower host input textPlain
          = parseBody asciiLower input).
Proof.
  split; [reflexivity|]. split; [reflexivity|].
  intro H. specialize (H noFiles (js "Jane Doe, C/C++ developer")).
  vm_compute in H. discriminate H.
Qed.

(** C2, amended. With the media type [text/plain], a string with neither a
    slash nor a backslash is itself the document body, whatever the file
    system holds; a string with one of them is a path, and the body is what
    reading that path gives (a failed read is the error of the call). *)
Theorem plain_text_body (toLowerCase : str -> str) (host : Host) (input : str) :
  (includes input (js "/") = false ->
   includes input [92%N] = false ->
   parseResumeContent toLowerCase host input textPlain = parseBody toLowerCase input)
  /\ (includes input (js "/") = true \/ includes input [92%N] = true ->
      parseResumeContent toLowerCase host input textPlain
      = match readFileUtf8 host input with
        | Ok content => parseBody toLowerCase content
        | Err message => Err message
        end).
Proof.
  unfold parseResumeContent, extractText. simpl str_eqb. cbv iota.
  split.
  - intros -> ->. reflexivity.
  - intros [-> | ->]; rewrite ?andb_false_r; reflexivity.
Qed.

Lemma plain_text_body_witness :
  parseResumeContent asciiLower (oneFile (js "John Roe")) (js "Jane Doe") textPlain
  = parseBody asciiLower (js "Jane Doe")
  /\ parseResumeContent asciiLower (oneFile (js "John Roe")) (js "uploads/cv.txt")
       textPlain
     = parseBody asciiLower (js "John Roe").
Proof.
  split.
  - exact (proj1 (plain_text_body asciiLower (oneFile (js "John Roe")) (js "Jane Doe"))
             eq_refl eq_refl).
  - exact (proj2 (plain_text_body asciiLower (oneFile (js "John Roe"))
                    (js "uploads/cv.txt")) (or_introl eq_refl)).
Defined.

(* ------------------------------------------------------------------ *)
(** ** The section segmenter *)

Lemma scanKeywords_spec (line : str) (keywords : list str) :
  scanKeywords line keywords
  = existsb (fun keyword => includes line keyword) keywords && (length line <? 50).
Proof.
  induction keywords as [|k ks IH]; simpl; auto.
  rewrite IH. destruct (includes line k), (length line <? 50); simpl; auto.
  rewrite andb_false_r. reflexivity.
Qed.

(** The two nested loops compute the header rule. *)
Lemma detectSectionHeader_headerOf (line : str) (table : list (str * list str)) :
  detectSectionHeader line table = headerOf table line.
Proof.
  unfold headerOf. induction table as [|[section keywords] rest IH]; simpl.
  - destruct (length line <? 50); reflexivity.
  - rewrite scanKeywords_spec, IH.
    destruct (length line <? 50); simpl.
    + rewrite andb_true_r.
      destruct (existsb (fun keyword => includes line keyword) keywords); reflexivity.
    + rewrite andb_false_r. reflexivity.
Qed.

Lemma find_first (A : Type) (f : A -> bool) (l : list A) (x : A) :
  find f l = Some x ->
  exists before after,
    l = before ++ x :: after /\ f x = true
    /\ forall y, In y before -> f y = false.
Proof.
  induction l as [|a l IH]; simpl; [discriminate|].
  destruct (f a) eqn:E.
  - intro H. injection H as ->. exists [], l. repeat split; auto.
    intros y [].
  - intro H. destruct (IH H) as (before & after & -> & Hx & Hb).
    exists (a :: before), after. repeat split; auto.
    intros y [<- | Hy]; auto.
Qed.

Lemma headerOf_named (table : list (str * list str)) (line section : str) :
  headerOf table line = Some section -> In section (map fst table).
Proof.
  unfold headerOf. destruct (length line <? 50); [|discriminate].
  destruct (find _ table) as [entry|] eqn:E; [|discriminate].
  simpl. intro H. injection H as <-. apply in_map. eapply find_some. exact E.
Qed.

(** Every section of the table has a name, so a detected section is never
    taken for "no section". *)
Lemma detected_sectionKeywords (line : str) :
  detected (detectSectionHeader line sectionKeywords)
  = headerOf sectionKeywords line.
Proof.
  rewrite detectSectionHeader_headerOf.
  destruct (headerOf sectionKeywords line) as [section|] eqn:E; auto.
  apply headerOf_named in E. simpl in E.
  repeat (destruct E as [<- | E]; [reflexivity|]). destruct E.
Qed.

Lemma headerOf_Some_iff (table : list (str * list str)) (line : str) :
  headerOf table line <> None
  <-> (exists section keywords keyword,
         In (section, keywords) table /\ In keyword keywords
         /\ includes line keyword = true)
      /\ length line < 50.
Proof.
  unfold headerOf. destruct (Nat.ltb_spec (length line) 50) as [Hlt|Hge].
  - split.
    + intro H. split; auto.
      destruct (find _ table) as [[section keywords]|] eqn:E; [|contradiction H; auto].
      apply find_some in E. destruct E as [Hin Hex]. simpl in Hex.
      apply existsb_exists in Hex. destruct Hex as (keyword & Hk & Hi).
      exists section, keywords, keyword. auto.
    + intros [(section & keywords & keyword & Hin & Hk & Hi) _].
      destruct (find _ table) as [entry|] eqn:E; [discriminate|].
      apply (find_none _ _ E) in Hin. simpl in Hin.
      assert (Hex : existsb (fun keyword => includes line keyword) keywords = true).
      { apply existsb_exists. exists keyword. auto. }
      congruence.
  - split; [intro H; contradiction H; auto|]. intros [_ H]. lia.
Qed.

Lemma headerOf_first (table : list (str * list str)) (line section : str) :
  headerOf table line = Some section ->
  exists before keywords after,
    table = before ++ (section, keywords) :: after
    /\ existsb (fun keyword => includes line keyword) keywords = true
    /\ forall entry, In entry before ->
         existsb (fun keyword => includes line keyword) (snd entry) = false.
Proof.
  unfold headerOf. destruct (length line <? 50); [|discriminate].
  destruct (find _ table) as [[s keywords]|] eqn:E; [|discriminate].
  simpl. intro H. injection H as ->.
  destruct (find_first _ _ E) as (before & after & Ht & Hx & Hb).
  exists before, keywords, after. auto.
Qed.

Lemma lowerDottedI_lowers_ascii : lowers_ascii lowerDottedI.
Proof.
  intros s. induction s as [|c s IH]; simpl; [reflexivity|].
  intro H. apply andb_true_iff in H. destruct H as [Hc Hs].
  rewrite (IH Hs). unfold isAscii in Hc. apply N.ltb_lt in Hc.
  destruct (N.eqb_spec c 304) as [->|_]; [lia | reflexivity].
Qed.

(** The length that decides is the lower-cased line's, not the line's own: a
    line of 49 code units whose lower case has 50 and contains the keyword
    "skills" is not taken for a header. *)
Lemma header_length_is_the_lowered_one :
  length dottedLine = 49
  /\ length (lowerDottedI dottedLine) = 50
  /\ includes (lowerDottedI dottedLine) (js "skills") = true
  /\ detected (detectSectionHeader (lowerDottedI dottedLine) sectionKeywords) = None
  /\ ~ (detected (detectSectionHeader (lowerDottedI dottedLine) sectionKeywords)
        <> None
        <-> (exists section keywords keyword,
               In (section, keywords) sectionKeywords /\ In keyword keywords
               /\ includes (lowerDottedI dottedLine) keyword = true)
            /\ length dottedLine < 50).
Proof.
  split; [reflexivity|]. split; [reflexivity|]. split; [reflexivity|].
  split; [reflexivity|].
  intros [_ H]. apply H; [|reflexivity]. split.
  - exists (js "skills"),
      [js "skills"; js "technical skills"; js "competencies"; js "expertise"],
      (js "skills").
    split; [|split]; [|left|]; try reflexivity.
    right. right. right. left. reflexivity.
  - vm_compute. lia.
Qed.

(** C4, amended. The segmenter takes a line for a section header exactly when
    the lower-cased line contains a keyword of some section of the table and
    the lower-cased line is under 50 code units long (which is the line's own
    length wherever lower-casing keeps the length); the section it
    then enters is the first one, in
    the order summary, experience, education, skills, achievements, projects,
    certifications, courses, with a keyword the line contains; on a header the
    buffer is handed to the parser of the current section (nothing happens
    when there is no current section or the buffer is empty), the matched
    section becomes current and the buffer is emptied.  This holds after
    every sequence of lines. *)
Theorem section_header_rule (toLowerCase : str -> str) (lines : list str)
    (resumeData : ResumeData) (line : str) :
  let st := fold_left (segStep toLowerCase) lines (mkSeg [] [] resumeData) in
  let lowerLine := toLowerCase line in
  let header := detected (detectSectionHeader lowerLine sectionKeywords) in
  (header <> None
   <-> (exists section keywords keyword,
          In (section, keywords) sectionKeywords /\ In keyword keywords
          /\ includes lowerLine keyword = true)
       /\ length lowerLine < 50)
  /\ (length lowerLine = length line ->
      (header <> None
       <-> (exists section keywords keyword,
              In (section, keywords) sectionKeywords /\ In keyword keywords
              /\ includes lowerLine keyword = true)
           /\ length line < 50))
  /\ map fst sectionKeywords
     = [js "summary"; js "experience"; js "education"; js "skills";
        js "achievements"; js "projects"; js "certifications"; js "courses"]
  /\ (forall section,
        header = Some section ->
        (exists before keywords after,
           sectionKeywords = before ++ (section, keywords) :: after
           /\ existsb (fun keyword => includes lowerLine keyword) keywords = true
           /\ forall entry, In entry before ->
                existsb (fun keyword => includes lowerLine keyword) (snd entry)
                = false)
        /\ fold_left (segStep toLowerCase) (lines ++ [line]) (mkSeg [] [] resumeData)
           = mkSeg section [] (flushSection toLowerCase st))
  /\ (currentSection st = [] \/ sectionContent st = [] ->
      flushSection toLowerCase st = resume st)
  /\ (currentSection st <> [] -> sectionContent st <> [] ->
      flushSection toLowerCase st
      = processSectionContent toLowerCase (currentSection st) (sectionContent st)
          (resume st)).
Proof.
  intros st lowerLine header. subst header.
  rewrite detected_sectionKeywords.
  split; [apply headerOf_Some_iff|].
  split; [intros <-; apply headerOf_Some_iff|].
  split; [reflexivity|].
  split; [|split].
  - intros section H. split; [apply headerOf_first; exact H|].
    rewrite fold_left_app. simpl. fold st. unfold segStep. fold lowerLine.
    rewrite detected_sectionKeywords, H. reflexivity.
  - unfold flushSection. intros [-> | ->]; simpl; auto.
    rewrite andb_false_r. reflexivity.
  - unfold flushSection. intros Hc Hb.
    destruct (currentSection st); [contradiction Hc; auto|].
    destruct (sectionContent st); [contradiction Hb; auto|]. reflexivity.
Qed.

Lemma section_header_rule_witness :
  detected (detectSectionHeader (asciiLower (js "Skills & Experience")) sectionKeywords)
  = Some (js "experience")
  /\ fold_left (segStep asciiLower)
       ([js "SKILLS"; js "Python, Go"] ++ [js "Skills & Experience"])
       (mkSeg [] [] emptyResume)
     = mkSeg (js "experience") []
         (set_skills [js "Python"; js "Go"] emptyResume).
Proof.
  split; [reflexivity|].
  exact (proj2 (proj1 (proj2 (proj2 (proj2
           (section_header_rule asciiLower [js "SKILLS"; js "Python, Go"] emptyResume
              (js "Skills & Experience")))))
           (js "experience") eq_refl)).
Defined.

(* ------------------------------------------------------------------ *)
(** ** Matches are at least as long as their pattern asks *)

Section MinLen.
Variable icase : bool.
Variable A : Type.

Lemma star_consumes (c : cls) (s : str) :
  forall (prev : option N) (k : cont A) (a : A),
    star icase c prev s k = Some a ->
    exists p t, k p t = Some a /\ length t <= length s.
Proof.
  induction s as [|x s IH]; intros prev k a; simpl.
  - intro H. exists prev, []. auto.
  - destruct (cls_mem icase c x).
    + destruct (star icase c (Some x) s k) as [r|] eqn:E.
      * intro H. injection H as ->. destruct (IH _ _ _ E) as (p & t & Hk & Hl).
        exists p, t. split; auto.
      * intro H. exists prev, (x :: s). auto.
    + intro H. exists prev, (x :: s). auto.
Qed.

Lemma run_consumes (r : regex) :
  forall (prev : option N) (s : str) (k : cont A) (a : A),
    run icase r prev s k = Some a ->
    exists p t, k p t = Some a /\ minLen r + length t <= length s.
Proof.
  induction r as [|c|r1 IH1 r2 IH2|r1 IH1 r2 IH2|r1 IH1|c| |];
    intros prev s k a; simpl.
  - intro H. exists prev, s. auto.
  - destruct s as [|x s]; [discriminate|].
    destruct (cls_mem icase c x); [|discriminate].
    intro H. exists (Some x), s. auto.
  - intro H. destruct (IH1 _ _ _ _ H) as (p & t & H2 & Hl).
    destruct (IH2 _ _ _ _ H2) as (p' & t' & Hk & Hl').
    exists p', t'. split; auto. lia.
  - destruct (run icase r1 prev s k) as [x|] eqn:E.
    + intro H. injection H as ->. destruct (IH1 _ _ _ _ E) as (p & t & Hk & Hl).
      exists p, t. split; auto. lia.
    + intro H. destruct (IH2 _ _ _ _ H) as (p & t & Hk & Hl).
      exists p, t. split; auto. lia.
  - destruct (run icase r1 prev s k) as [x|] eqn:E.
    + intro H. injection H as ->. destruct (IH1 _ _ _ _ E) as (p & t & Hk & Hl).
      exists p, t. split; auto. lia.
    + intro H. exists prev, s. auto.
  - apply star_consumes.
  - destruct prev; [discriminate|]. intro H. exists None, s. auto.
  - destruct (xorb (isWordBefore prev) (isWordAt s)); [|discriminate].
    intro H. exists prev, s. auto.
Qed.
End MinLen.

Lemma exec_from_minLen (icase : bool) (r : regex) (s : str) :
  forall prev m, exec_from icase r prev s = Some m -> minLen r <= length s.
Proof.
  induction s as [|x s IH]; intros prev m; simpl.
  - destruct (run icase r prev [] (fun _ t => Some t)) eqn:E; [|discriminate].
    intros _. destruct (run_consumes _ _ _ _ _ E) as (p & t & _ & Hl).
    simpl in Hl. lia.
  - destruct (run icase r prev (x :: s) (fun _ t => Some t)) eqn:E.
    + intros _. destruct (run_consumes _ _ _ _ _ E) as (p & t & _ & Hl).
      simpl in Hl. lia.
    + intro H. apply IH in H. lia.
Qed.

Lemma test_minLen (icase : bool) (r : regex) (s : str) :
  test icase r s = true -> minLen r <= length s.
Proof.
  unfold test, exec. destruct (exec_from icase r None s) eqn:E; [|discriminate].
  intros _. eapply exec_from_minLen. exact E.
Qed.

(** No date pattern matches a line of fewer than seven code units. *)
Lemma isDateRange_length (line : str) : isDateRange line = true -> 7 <= length line.
Proof.
  unfold isDateRange, datePatterns. simpl existsb.
  rewrite !orb_true_iff.
  intros [H | [H | [H | [H | H]]]]; try discriminate;
    apply test_minLen in H;
    match type of H with
    | minLen ?r <= _ =>
        let n := eval vm_compute in (minLen r) in
        change (minLen r) with n in H
    end; lia.
Qed.

(* ------------------------------------------------------------------ *)
(** ** Experience entries *)

Lemma isCompanyName_spec (line : str) :
  isCompanyName line = (2 <? length line) && (length line <? 100).
Proof. reflexivity. Qed.

(** A line that is not taken as the company name has at most 2 or at least
    100 code units, and [isLocation] wants more than 3 and fewer than 50. *)
Lemma isLocation_after_isCompanyName (line : str) :
  isCompanyName line = false -> isLocation line = false.
Proof.
  unfold isCompanyName, isLocation. intro H.
  destruct (Nat.ltb_spec 3 (length line)); simpl; auto.
  destruct (Nat.ltb_spec (length line) 50); simpl; auto.
  apply andb_false_iff in H.
  destruct H as [H | H]; [apply Nat.ltb_ge in H | apply Nat.ltb_ge in H]; lia.
Qed.

Lemma lastOr_cons (A : Type) (d x : A) (l : list A) :
  lastOr d (x :: l) = lastOr x l.
Proof. reflexivity. Qed.

(** What the routing of one line does, by the length of the line. *)
Lemma routeExp_cases (e : Exp.t) (line : str) :
  routeExp e line
  = if (2 <? length line) && (length line <? 100) then
      Exp.mk (Exp.title e) line (Exp.date e) (Exp.companyLocation e)
        (Exp.accomplishment e)
    else if (100 <=? length line) && isDateRange line then
      Exp.mk (Exp.title e) (Exp.companyName e) line (Exp.companyLocation e)
        (Exp.accomplishment e)
    else if (100 <=? length line) && negb (isDateRange line) then
      Exp.mk (Exp.title e) (Exp.companyName e) (Exp.date e) (Exp.companyLocation e)
        (Exp.accomplishment e ++ [line])
    else e.
Proof.
  unfold routeExp. rewrite isCompanyName_spec.
  destruct ((2 <? length line) && (length line <? 100)) eqn:Ec; auto.
  rewrite (isLocation_after_isCompanyName line Ec).
  apply andb_false_iff in Ec.
  destruct (isDateRange line) eqn:Ed; cbn [negb].
  - apply isDateRange_length in Ed.
    destruct Ec as [Ec | Ec]; apply Nat.ltb_ge in Ec; [lia|].
    apply Nat.leb_le in Ec. rewrite Ec. reflexivity.
  - rewrite !andb_false_r, andb_true_r.
    destruct (Nat.ltb_spec 10 (length line)), (Nat.leb_spec 100 (length line));
      auto; exfalso;
      destruct Ec as [Ec | Ec]; apply Nat.ltb_ge in Ec; lia.
Qed.

(** The entry in progress after a run of lines none of which starts an
    entry. *)
Lemma fold_routeExp (body : list str) :
  forall e,
    fold_left routeExp body e
    = Exp.mk (Exp.title e)
        (lastOr (Exp.companyName e)
           (filter (fun l => (2 <? length l) && (length l <? 100)) body))
        (lastOr (Exp.date e)
           (filter (fun l => (100 <=? length l) && isDateRange l) body))
        (Exp.companyLocation e)
        (Exp.accomplishment e
         ++ filter (fun l => (100 <=? length l) && negb (isDateRange l)) body).
Proof.
  induction body as [|line body IH]; intro e; cbn [fold_left filter].
  - unfold lastOr. simpl. rewrite app_nil_r. destruct e; reflexivity.
  - rewrite IH, routeExp_cases.
    destruct ((2 <? length line) && (length line <? 100)) eqn:Ec.
    + assert (Hl : (100 <=? length line) = false).
      { apply andb_true_iff in Ec. destruct Ec as [_ Ec].
        apply Nat.ltb_lt in Ec. apply Nat.leb_gt. exact Ec. }
      rewrite Hl. reflexivity.
    + destruct (100 <=? length line); cbn [andb]; [|reflexivity].
      destruct (isDateRange line); cbn [negb]; [reflexivity|].
      cbn [Exp.accomplishment Exp.title Exp.companyName Exp.date Exp.companyLocation].
      rewrite <- app_assoc. reflexivity.
Qed.

(** The loop, from any state: the finished entries, the entry in progress
    completed by the lines up to the next title, then one entry per later
    title. *)
Lemma expLoop_groups (content : list str) :
  forall experiences currentExp,
    expLoop content experiences currentExp
    = experiences
      ++ match currentExp with
         | Some e => [fold_left routeExp (bodyOf isJobTitle content) e]
         | None => []
         end
      ++ map (fun g => fold_left routeExp (snd g) (newExp (fst g)))
           (groupsOf isJobTitle content).
Proof.
  induction content as [|line rest IH]; intros experiences currentExp; simpl.
  - destruct currentExp; simpl; auto. rewrite app_nil_r. reflexivity.
  - destruct (isJobTitle line) eqn:Et.
    + rewrite IH. simpl.
      destruct currentExp; simpl; auto. rewrite <- app_assoc. reflexivity.
    + destruct currentExp; rewrite IH; reflexivity.
Qed.

Lemma parseExperience_groups (content : list str) :
  parseExperience content = map expEntry (groupsOf isJobTitle content).
Proof.
  unfold parseExperience. rewrite expLoop_groups. simpl.
  apply map_ext. intros [t body]. rewrite fold_routeExp. reflexivity.
Qed.

Lemma bodyOf_incl (starts : str -> bool) (content : list str) (l : str) :
  In l (bodyOf starts content) -> In l content /\ starts l = false.
Proof.
  induction content as [|line rest IH]; simpl; [intros []|].
  destruct (starts line) eqn:E; [intros []|].
  intros [<- | H]; auto. destruct (IH H). auto.
Qed.

Lemma groupsOf_incl (starts : str -> bool) (content : list str)
    (g : str * list str) :
  In g (groupsOf starts content) ->
  (In (fst g) content /\ starts (fst g) = true)
  /\ forall l, In l (snd g) -> In l content /\ starts l = false.
Proof.
  induction content as [|line rest IH]; simpl; [intros []|].
  destruct (starts line) eqn:E.
  - intros [<- | H]; simpl.
    + split; auto. intros l Hl. apply bodyOf_incl in Hl. destruct Hl. auto.
    + destruct (IH H) as [[H1 H2] H3]. split; auto.
      intros l Hl. destruct (H3 l Hl). auto.
  - intro H. destruct (IH H) as [[H1 H2] H3]. split; auto.
    intros l Hl. destruct (H3 l Hl). auto.
Qed.

Lemma lastOr_filter (A : Type) (f : A -> bool) (d : A) (l : list A) :
  lastOr d (filter f l) = d \/ (In (lastOr d (filter f l)) l
                               /\ f (lastOr d (filter f l)) = true).
Proof.
  revert d. induction l as [|x l IH]; intro d; simpl; auto.
  destruct (f x) eqn:E.
  - rewrite lastOr_cons. destruct (IH x) as [-> | [H1 H2]]; auto.
  - destruct (IH d) as [-> | [H1 H2]]; auto.
Qed.

(** C9. Every entry of [parseExperience] has an empty [companyLocation]: a
    line that [isCompanyName] rejects has at most 2 or at least 100 code
    units, so [isLocation] rejects it too.  Hence the date and the
    accomplishments of an entry are lines of 100 code units or more, and the
    company name is the last line, among the lines between the entry's title
    and the next title, whose length is strictly between 2 and 100. *)
Theorem experience_entries (content : list str) :
  parseExperience content = map expEntry (groupsOf isJobTitle content)
  /\ (forall line,
        (isCompanyName line = false <-> length line <= 2 \/ 100 <= length line)
        /\ (isCompanyName line = false -> isLocation line = false))
  /\ (forall e,
        In e (parseExperience content) ->
        Exp.companyLocation e = []
        /\ (Exp.date e <> [] ->
            In (Exp.date e) content /\ 100 <= length (Exp.date e))
        /\ (forall a, In a (Exp.accomplishment e) ->
                      In a content /\ 100 <= length a)
        /\ exists body,
             In (Exp.title e, body) (groupsOf isJobTitle content)
             /\ Exp.companyName e
                = lastOr [] (filter (fun l => (2 <? length l) && (length l <? 100))
                               body)).
Proof.
  split; [apply parseExperience_groups|]. split.
  - intro line. split; [|apply isLocation_after_isCompanyName].
    unfold isCompanyName. rewrite andb_false_iff, !Nat.ltb_ge. lia.
  - intros e He. rewrite parseExperience_groups in He.
    apply in_map_iff in He. destruct He as ([t body] & <- & Hg).
    destruct (groupsOf_incl _ _ _ Hg) as [_ Hbody]. simpl in Hbody.
    unfold expEntry.
    cbn [fst snd Exp.title Exp.companyName Exp.date Exp.companyLocation
         Exp.accomplishment].
    split; [reflexivity|]. split; [|split].
    + intro Hd.
      destruct (lastOr_filter (fun l => (100 <=? length l) && isDateRange l) [] body)
        as [H | [Hin Hp]]; [contradiction|].
      apply andb_true_iff in Hp. destruct Hp as [Hp _]. apply Nat.leb_le in Hp.
      split; auto. apply (Hbody _ Hin).
    + intros a Ha. apply filter_In in Ha. destruct Ha as [Hin Hp].
      apply andb_true_iff in Hp. destruct Hp as [Hp _]. apply Nat.leb_le in Hp.
      split; auto. apply (Hbody _ Hin).
    + exists body. auto.
Qed.

Lemma experience_entries_witness :
  parseExperience [js "Senior Developer"; js "acme corp"; js "remote, 2019 - 2021"]
  = [Exp.mk (js "Senior Developer") (js "remote, 2019 - 2021") [] [] []]
  /\ Exp.companyLocation
       (Exp.mk (js "Senior Developer") (js "remote, 2019 - 2021") [] [] []) = [].
Proof.
  split; [reflexivity|].
  exact (proj1 (proj2 (proj2 (experience_entries
           [js "Senior Developer"; js "acme corp"; js "remote, 2019 - 2021"]))
           (Exp.mk (js "Senior Developer") (js "remote, 2019 - 2021") [] [] [])
           (or_introl eq_refl))).
Defined.

(* ------------------------------------------------------------------ *)
(** ** The parser only lower-cases the lines of its text *)

Unset Implicit Arguments.

Lemma firstn_incl (A : Type) (n : nat) (l : list A) : incl (firstn n l) l.
Proof.
  revert l. induction n as [|n IH]; intros [|x l] y; simpl; auto.
  - intros [].
  - intros [<- | H]; auto. right. apply IH, H.
Qed.

Section Agree.
Variables f g : str -> str.

Lemma hasKeyword_agree (keywords : list string) (line : str) :
  f line = g line -> hasKeyword f keywords line = hasKeyword g keywords line.
Proof. unfold hasKeyword. intros ->. reflexivity. Qed.

Lemma agree_on_cons (line : str) (lines : list str) :
  agree_on f g (line :: lines) -> f line = g line /\ agree_on f g lines.
Proof.
  intro H. split; [apply H; left; reflexivity|].
  intros l Hl. apply H. right. exact Hl.
Qed.

Lemma agree_on_app (xs ys : list str) :
  agree_on f g xs -> agree_on f g ys -> agree_on f g (xs ++ ys).
Proof.
  intros Hx Hy l Hl. apply in_app_or in Hl. destruct Hl; auto.
Qed.

Lemma agree_on_incl (xs ys : list str) :
  incl xs ys -> agree_on f g ys -> agree_on f g xs.
Proof. intros Hi Hy l Hl. apply Hy, Hi, Hl. Qed.

Lemma routeEdu_agree (e : Edu.t) (line : str) :
  f line = g line -> routeEdu f e line = routeEdu g e line.
Proof.
  intro H. unfold routeEdu, isInstitution.
  rewrite (hasKeyword_agree _ _ H). reflexivity.
Qed.

Lemma eduLoop_agree (content : list str) :
  agree_on f g content ->
  forall education currentEdu,
    eduLoop f content education currentEdu = eduLoop g content education currentEdu.
Proof.
  induction content as [|line rest IH]; intros H education currentEdu; simpl; auto.
  apply agree_on_cons in H. destruct H as [Hl Hr].
  unfold isDegree. rewrite (hasKeyword_agree _ _ Hl).
  destruct (hasKeyword g _ line); [apply IH; exact Hr|].
  destruct currentEdu; [rewrite (routeEdu_agree _ _ Hl)|]; apply IH; exact Hr.
Qed.

Lemma processSectionContent_agree (section : str) (content : list str)
    (r : ResumeData) :
  agree_on f g content ->
  processSectionContent f section content r
  = processSectionContent g section content r.
Proof.
  intro H. unfold processSectionContent, parseEducation.
  rewrite (eduLoop_agree _ H). reflexivity.
Qed.

Lemma flushSection_agree (st : SegState) :
  agree_on f g (sectionContent st) -> flushSection f st = flushSection g st.
Proof.
  intro H. unfold flushSection.
  rewrite (processSectionContent_agree _ _ _ H). reflexivity.
Qed.

Lemma fold_segStep_agree (lines : list str) :
  agree_on f g lines ->
  forall st,
    agree_on f g (sectionContent st) ->
    fold_left (segStep f) lines st = fold_left (segStep g) lines st
    /\ agree_on f g (sectionContent (fold_left (segStep g) lines st)).
Proof.
  induction lines as [|line rest IH]; intros H st Hst; simpl; auto.
  apply agree_on_cons in H. destruct H as [Hl Hr].
  assert (Hs : segStep f st line = segStep g st line).
  { unfold segStep. rewrite Hl, (flushSection_agree _ Hst). reflexivity. }
  rewrite Hs. apply IH; auto.
  unfold segStep.
  destruct (detected (detectSectionHeader (g line) sectionKeywords)); simpl.
  - intros l [].
  - destruct (truthy (currentSection st)); simpl; auto.
    apply agree_on_app; auto. intros l [<- | []]. exact Hl.
Qed.

Lemma extractSections_agree (lines : list str) (r : ResumeData) :
  agree_on f g lines -> extractSections f lines r = extractSections g lines r.
Proof.
  intro H. unfold extractSections.
  destruct (fold_segStep_agree _ H (mkSeg [] [] r)) as [-> Hc];
    [intros l []|].
  apply flushSection_agree, Hc.
Qed.

Lemma roleLoop_agree (candidates : list str) (r : ResumeData) :
  agree_on f g candidates -> roleLoop f candidates r = roleLoop g candidates r.
Proof.
  induction candidates as [|line rest IH]; intro H; simpl; auto.
  apply agree_on_cons in H. destruct H as [Hl Hr].
  unfold isRoleLine. rewrite (hasKeyword_agree _ _ Hl), (IH Hr). reflexivity.
Qed.

Lemma extractBasicInfo_agree (lines : list str) (r : ResumeData) :
  agree_on f g lines -> extractBasicInfo f lines r = extractBasicInfo g lines r.
Proof.
  intro H. unfold extractBasicInfo. apply roleLoop_agree.
  apply agree_on_incl with (ys := lines); auto.
  intros l Hl. apply firstn_incl in Hl. destruct lines; [destruct Hl|].
  right. exact Hl.
Qed.

(** Two lower-casing functions that agree on the lines of a text give the
    same record. *)
Lemma parseTextToStructuredData_agree (text : str) :
  agree_on f g (textLines text) ->
  parseTextToStructuredData f text = parseTextToStructuredData g text.
Proof.
  intro H. unfold parseTextToStructuredData.
  rewrite (extractBasicInfo_agree _ _ H), (extractSections_agree _ _ H). reflexivity.
Qed.
End Agree.

Lemma ascii_lines_agree (toLowerCase : str -> str) (lines : list str) :
  lowers_ascii toLowerCase ->
  forallb (forallb isAscii) lines = true ->
  agree_on toLowerCase asciiLower lines.
Proof.
  intros H Ha l Hl. apply H. rewrite forallb_forall in Ha. apply Ha, Hl.
Qed.

(** On an ASCII text the record does not depend on how [toLowerCase] treats
    the rest of Unicode. *)
Lemma parse_ascii_text (toLowerCase : str -> str) (text : str) :
  lowers_ascii toLowerCase ->
  forallb (forallb isAscii) (textLines text) = true ->
  parseTextToStructuredData toLowerCase text
  = parseTextToStructuredData asciiLower text.
Proof.
  intros H Ha. apply parseTextToStructuredData_agree, ascii_lines_agree; auto.
Qed.

(* ------------------------------------------------------------------ *)
(** ** The scenarios *)

(** In scenario A the education entry is not the one with institution
    ["MIT"] and duration ["2018-2022"]: ["MIT"] is too short for
    [isInstitution], [isDateRange] and [isLocation] alike, and ["2018-2022"]
    is taken by [isInstitution], which is asked first. *)
Lemma scenario_A_education_differs :
  ~ (exists r,
       parseResumeContent asciiLower noFiles scenarioA textPlain = Ok r
       /\ name r = js "Jane Doe" /\ email r = js "jane@x.com"
       /\ phone r = js "555-123-4567"
       /\ education r
          = [Edu.mk (js "Bachelor of Science") (js "MIT") (js "2018-2022") []]).
Proof.
  intros (r & Hr & _ & _ & _ & He).
  vm_compute in Hr. injection Hr as <-. vm_compute in He. discriminate He.
Qed.

(** C1, amended. For the eight lines of scenario A the parser returns a
    record with name ["Jane Doe"], email ["jane@x.com"], phone
    ["555-123-4567"] and exactly one education entry, whose degree is
    ["Bachelor of Science"], whose institution is ["2018-2022"], and whose
    duration and location are empty. *)
Theorem scenario_A (toLowerCase : str -> str) (host : Host) :
  lowers_ascii toLowerCase ->
  exists r,
    parseResumeContent toLowerCase host scenarioA textPlain = Ok r
    /\ name r = js "Jane Doe" /\ email r = js "jane@x.com"
    /\ phone r = js "555-123-4567"
    /\ education r = [Edu.mk (js "Bachelor of Science") (js "2018-2022") [] []].
Proof.
  intro H. exists (parseTextToStructuredData toLowerCase scenarioA).
  split; [reflexivity|].
  rewrite (parse_ascii_text _ scenarioA H) by (vm_compute; reflexivity).
  vm_compute. repeat split.
Qed.

Lemma scenario_A_witness :
  exists r,
    parseResumeContent asciiLower noFiles scenarioA textPlain = Ok r
    /\ name r = js "Jane Doe" /\ email r = js "jane@x.com"
    /\ phone r = js "555-123-4567"
    /\ education r = [Edu.mk (js "Bachelor of Science") (js "2018-2022") [] []].
Proof.
  exact (scenario_A asciiLower noFiles (fun s _ => eq_refl)).
Defined.

(** In scenario D the projects are not the single entry with duration
    ["6 months"] and description ["Built a thing."]. *)
Lemma scenario_D_projects_differ :
  parseProjects scenarioD_body
  <> [Proj.mk (js "Project Alpha") (js "Built a thing.") (js "6 months")]
  /\ projects (parseTextToStructuredData asciiLower scenarioD)
     <> [Proj.mk (js "Project Alpha") (js "Built a thing.") (js "6 months")].
Proof.
  split; intro H; vm_compute in H; discriminate H.
Qed.

(** C3, amended. For the lines ["Project Alpha"], ["6 months"],
    ["Built a thing."] under a PROJECTS header the parser produces two
    project entries, titled ["Project Alpha"] and ["Built a thing."], each
    with an empty description and an empty duration. *)
Theorem scenario_D (toLowerCase : str -> str) :
  lowers_ascii toLowerCase ->
  parseProjects scenarioD_body
  = [Proj.mk (js "Project Alpha") [] []; Proj.mk (js "Built a thing.") [] []]
  /\ projects (parseTextToStructuredData toLowerCase scenarioD)
     = [Proj.mk (js "Project Alpha") [] []; Proj.mk (js "Built a thing.") [] []].
Proof.
  intro H. split; [reflexivity|].
  rewrite (parse_ascii_text _ scenarioD H) by (vm_compute; reflexivity).
  vm_compute. reflexivity.
Qed.

Lemma scenario_D_witness :
  parseProjects scenarioD_body
  = [Proj.mk (js "Project Alpha") [] []; Proj.mk (js "Built a thing.") [] []]
  /\ projects (parseTextToStructuredData asciiLower scenarioD)
     = [Proj.mk (js "Project Alpha") [] []; Proj.mk (js "Built a thing.") [] []].
Proof.
  exact (scenario_D asciiLower (fun s _ => eq_refl)).
Defined.

Lemma parseSkills_lengths (content : list str) (skill : str) :
  In skill (parseSkills content) -> 2 <= length skill <= 49.
Proof.
  unfold parseSkills. intro H. apply filter_In in H. destruct H as [_ H].
  apply andb_true_iff in H. destruct H as [H1 H2].
  apply Nat.ltb_lt in H1. apply Nat.ltb_lt in H2. lia.
Qed.

(** C7. For the lines ["SKILLS"] and ["Python, Go; Rust | Docker"] the
    skills are exactly ["Python"], ["Go"], ["Rust"], ["Docker"], in this
    order; and whatever the section body, every skill kept has between 2 and
    49 code units. *)
Theorem scenario_B (toLowerCase : str -> str) :
  lowers_ascii toLowerCase ->
  parseSkills [js "Python, Go; Rust | Docker"]
  = [js "Python"; js "Go"; js "Rust"; js "Docker"]
  /\ skills (parseTextToStructuredData toLowerCase scenarioB)
     = [js "Python"; js "Go"; js "Rust"; js "Docker"]
  /\ (forall content skill,
        In skill (parseSkills content) -> 2 <= length skill <= 49).
Proof.
  intro H. split; [reflexivity|]. split; [|apply parseSkills_lengths].
  rewrite (parse_ascii_text _ scenarioB H) by (vm_compute; reflexivity).
  vm_compute. reflexivity.
Qed.

Lemma scenario_B_witness :
  skills (parseTextToStructuredData asciiLower scenarioB)
  = [js "Python"; js "Go"; js "Rust"; js "Docker"]
  /\ 2 <= length (js "Go") <= 49.
Proof.
  split.
  - exact (proj1 (proj2 (scenario_B asciiLower (fun s _ => eq_refl)))).
  - exact (proj2 (proj2 (scenario_B asciiLower (fun s _ => eq_refl)))
             [js "Python, Go; Rust | Docker"] (js "Go")
             (or_intror (or_introl eq_refl))).
Defined.

(* ------------------------------------------------------------------ *)
(** ** More on strings *)

Lemma str_eqb_eq (a b : str) : str_eqb a b = true <-> a = b.
Proof.
  revert b. induction a as [|x a IH]; intros [|y b]; simpl;
    try (split; [discriminate | intro H; discriminate H]).
  - tauto.
  - rewrite andb_true_iff, N.eqb_eq, IH. split.
    + intros [-> ->]. reflexivity.
    + intro H. injection H as -> ->. auto.
Qed.

Lemma trimStart_snoc (l : str) (c : N) :
  isWhiteSpace c = false -> trimStart (l ++ [c]) = trimStart l ++ [c].
Proof.
  intro Hc. induction l as [|x l IH]; simpl.
  - rewrite Hc. reflexivity.
  - destruct (isWhiteSpace x); auto.
Qed.

(** A string that starts with something else than white space keeps its
    first code unit when its end is trimmed. *)
Lemma trimEnd_cons (c : N) (s : str) :
  isWhiteSpace c = false -> trimEnd (c :: s) = c :: trimEnd s.
Proof.
  intro Hc. unfold trimEnd. simpl. rewrite trimStart_snoc by exact Hc.
  rewrite rev_app_distr. reflexivity.
Qed.

Lemma trimStart_shape (s : str) :
  trimStart s = [] \/ exists c t, trimStart s = c :: t /\ isWhiteSpace c = false.
Proof.
  induction s as [|x s IH]; simpl; auto.
  destruct (isWhiteSpace x) eqn:E; auto. right. exists x, s. auto.
Qed.

Lemma trimEnd_fixed (s : str) : trimEnd (trimEnd s) = trimEnd s.
Proof.
  unfold trimEnd. rewrite rev_involutive, trimStart_fixed. reflexivity.
Qed.

Lemma trimStart_trim (s : str) : trimStart (trim s) = trim s.
Proof.
  unfold trim. destruct (trimStart_shape s) as [-> | (c & t & -> & Hc)].
  - reflexivity.
  - rewrite trimEnd_cons by exact Hc. simpl. rewrite Hc. reflexivity.
Qed.

(** Trimming twice is trimming once. *)
Lemma trim_idempotent (s : str) : trim (trim s) = trim s.
Proof.
  unfold trim at 1. rewrite trimStart_trim. unfold trim. apply trimEnd_fixed.
Qed.

Lemma trimStart_suffix (s : str) : exists ws, s = ws ++ trimStart s.
Proof.
  induction s as [|c s [ws IH]]; simpl.
  - exists []. reflexivity.
  - destruct (isWhiteSpace c).
    + exists (c :: ws). simpl. rewrite <- IH. reflexivity.
    + exists []. reflexivity.
Qed.

(** What [trim] returns occurs in its argument. *)
Lemma trim_occurs (s : str) : occursIn (trim s) s.
Proof.
  unfold trim, trimEnd.
  destruct (trimStart_suffix s) as [ws Hs].
  destruct (trimStart_suffix (rev (trimStart s))) as [we He].
  exists ws, (rev we).
  rewrite <- rev_app_distr, <- He, rev_involutive. exact Hs.
Qed.

Lemma occursIn_not_In (c : N) (m s : str) :
  occursIn m s -> ~ In c s -> ~ In c m.
Proof.
  intros (before & after & ->) H Hm. apply H.
  apply in_or_app. right. apply in_or_app. left. exact Hm.
Qed.

(** The pieces of a split hold no separator, and nothing the string did not
    hold. *)
Lemma split_no_sep (sep : N) (s : str) :
  Forall (fun piece => ~ In sep piece) (split sep s).
Proof.
  induction s as [|c s IH]; simpl.
  - constructor; auto.
  - destruct (N.eqb_spec c sep) as [->|Hne].
    + constructor; auto.
    + destruct (split sep s) as [|h t].
      * constructor; auto. intros [H | []]. auto.
      * inversion IH; subst. constructor; auto.
        intros [H | H]; auto.
Qed.

Lemma split_keeps_out (c sep : N) (s : str) :
  ~ In c s -> Forall (fun piece => ~ In c piece) (split sep s).
Proof.
  induction s as [|x s IH]; simpl; intro H.
  - constructor; auto.
  - assert (Hs : ~ In c s) by (intro; apply H; auto).
    specialize (IH Hs).
    destruct (x =? sep)%N.
    + constructor; auto.
    + destruct (split sep s) as [|h t].
      * constructor; auto. intros [E | []]. apply H. auto.
      * inversion IH; subst. constructor; auto.
        intros [E | E]; [apply H; auto | auto].
Qed.

(** Joining the pieces of a split with the separator gives the string
    back. *)
Lemma join_split (sep : N) (s : str) : join [sep] (split sep s) = s.
Proof.
  induction s as [|c s IH]; simpl; auto.
  destruct (N.eqb_spec c sep) as [->|Hne].
  - destruct (split sep s) as [|h t] eqn:E.
    + destruct s; simpl in E; [discriminate|].
      destruct (n =? sep)%N; [discriminate|]. destruct (split sep s); discriminate.
    + simpl. simpl in IH. rewrite IH. reflexivity.
  - destruct (split sep s) as [|h t] eqn:E.
    + simpl in IH. subst s. reflexivity.
    + destruct t; simpl in *; rewrite <- IH; reflexivity.
Qed.

Lemma join_cons (sep p : str) (rest : list str) :
  rest <> [] -> join sep (p :: rest) = p ++ sep ++ join sep rest.
Proof. destruct rest; [intro H; contradiction H; auto | reflexivity]. Qed.

Lemma join_occurs (sep : str) (parts : list str) (piece : str) :
  In piece parts -> occursIn piece (join sep parts).
Proof.
  induction parts as [|p rest IH]; [intros []|].
  destruct rest as [|q rest].
  - intros [<- | []]. exists [], []. simpl. rewrite app_nil_r. reflexivity.
  - rewrite join_cons by discriminate. intros [<- | H].
    + exists [], (sep ++ join sep (q :: rest)). reflexivity.
    + destruct (IH H) as (b & a & ->). exists (p ++ sep ++ b), a.
      rewrite <- !app_assoc. reflexivity.
Qed.

Lemma occursIn_trans (a b c : str) : occursIn a b -> occursIn b c -> occursIn a c.
Proof.
  intros (b1 & a1 & ->) (b2 & a2 & ->). exists (b2 ++ b1), (a1 ++ a2).
  rewrite <- !app_assoc. reflexivity.
Qed.

(* ------------------------------------------------------------------ *)
(** ** The lines of a text *)

Lemma textLines_raw (text line : str) :
  In line (textLines text) ->
  line <> [] /\ exists raw, In raw (split 10%N text) /\ line = trim raw.
Proof.
  unfold textLines. intro H. apply filter_In in H. destruct H as [H Hn].
  apply in_map_iff in H. destruct H as (raw & <- & Hraw). split.
  - intros E. rewrite E in Hn. discriminate.
  - exists raw. auto.
Qed.

Lemma split_piece_occurs (sep : N) (s piece : str) :
  In piece (split sep s) -> occursIn piece s.
Proof.
  intro H. rewrite <- (join_split sep s). apply join_occurs, H.
Qed.

(** X1. Every line handed to the extractors is non-empty, has no white space
    at either end (trimming it again changes nothing), holds no line feed,
    and occurs in the text. *)
Theorem textLines_clean (text line : str) :
  In line (textLines text) ->
  line <> [] /\ trim line = line /\ ~ In 10%N line /\ occursIn line text.
Proof.
  intro H. apply textLines_raw in H. destruct H as (Hne & raw & Hraw & ->).
  assert (Hlf : ~ In 10%N raw).
  { pose proof (split_no_sep 10%N text) as Hf. rewrite Forall_forall in Hf.
    apply Hf, Hraw. }
  repeat split.
  - exact Hne.
  - apply trim_idempotent.
  - apply (occursIn_not_In _ _ _ (trim_occurs raw) Hlf).
  - apply occursIn_trans with (b := raw);
      [apply trim_occurs | apply (split_piece_occurs 10%N), Hraw].
Qed.

Lemma textLines_clean_witness :
  In (js "Jane Doe") (textLines (js "  Jane Doe  " ++ [10%N; 9%N; 10%N] ++ js "x"))
  /\ trim (js "Jane Doe") = js "Jane Doe".
Proof.
  split; [left; reflexivity|].
  exact (proj1 (proj2 (textLines_clean
           (js "  Jane Doe  " ++ [10%N; 9%N; 10%N] ++ js "x") (js "Jane Doe")
           (or_introl eq_refl)))).
Defined.

Lemma textLines_nil_iff (text : str) :
  textLines text = [] <-> forallb isWhiteSpace text = true.
Proof.
  split.
  - intro H. apply trim_nil_iff, textLines_nil_trim, H.
  - intro H. unfold textLines.
    destruct (filter _ _) as [|line rest] eqn:E; auto. exfalso.
    assert (Hin : In line (textLines text)) by (unfold textLines; rewrite E; left; auto).
    destruct (textLines_raw _ _ Hin) as (Hne & raw & Hraw & ->).
    destruct (split_piece_occurs _ _ _ Hraw) as (b & a & Ho).
    rewrite Ho, !forallb_app in H.
    apply andb_true_iff in H. destruct H as [_ H].
    apply andb_true_iff in H. destruct H as [H _].
    apply trim_nil_iff in H. contradiction.
Qed.

(** X2. Once the text is extracted there is one error path only: a text with
    a code unit that is not white space has at least one line and is parsed
    into a record; a text without one has no line and is refused. *)
Theorem record_iff_some_text (toLowerCase : str -> str) (host : Host)
    (input mime text : str) :
  extractText host input mime = Ok text ->
  ((exists c, In c text /\ isWhiteSpace c = false) ->
   textLines text <> []
   /\ parseResumeContent toLowerCase host input mime
      = Ok (parseTextToStructuredData toLowerCase text))
  /\ ((forall c, In c text -> isWhiteSpace c = true) ->
      textLines text = []
      /\ parseResumeContent toLowerCase host input mime = Err emptyContentMessage).
Proof.
  intro Hx. unfold parseResumeContent, parseBody. rewrite Hx. split.
  - intros (c & Hc & Hw).
    assert (Hf : forallb isWhiteSpace text = false).
    { destruct (forallb isWhiteSpace text) eqn:E; auto.
      rewrite forallb_forall in E. rewrite (E c Hc) in Hw. discriminate. }
    assert (Ht : trim text <> []).
    { intro E. apply trim_nil_iff in E. congruence. }
    split.
    + intro E. apply textLines_nil_iff in E. congruence.
    + destruct text as [|x text]; [destruct Hc|].
      destruct (trim (x :: text)); [contradiction Ht; auto|]. reflexivity.
  - intro Hall.
    assert (Hf : forallb isWhiteSpace text = true) by (apply forallb_forall, Hall).
    split; [apply textLines_nil_iff, Hf|].
    apply trim_nil_iff in Hf. rewrite Hf. simpl. rewrite orb_true_r. reflexivity.
Qed.

Lemma record_iff_some_text_witness :
  parseResumeContent asciiLower noFiles (js " x ") textPlain
  = Ok (parseTextToStructuredData asciiLower (js " x "))
  /\ parseResumeContent asciiLower noFiles (js "   ") textPlain
     = Err emptyContentMessage.
Proof.
  split.
  - exact (proj2 (proj1 (record_iff_some_text asciiLower noFiles (js " x ") textPlain
                           (js " x ") eq_refl)
                   (ex_intro _ (ch "x") (conj (or_intror (or_introl eq_refl)) eq_refl)))).
  - apply (proj2 (record_iff_some_text asciiLower noFiles (js "   ") textPlain
                    (js "   ") eq_refl)).
    intros c [<- | [<- | [<- | []]]]; reflexivity.
Defined.

(* ------------------------------------------------------------------ *)
(** ** The upload filter and the parser agree on the media types *)

Lemma existsb_allowed (mime : str) :
  existsb (str_eqb mime) allowedTypes = true <-> In mime allowedTypes.
Proof.
  rewrite existsb_exists. split.
  - intros (x & Hx & E). apply str_eqb_eq in E. subst. exact Hx.
  - intro H. exists mime. split; auto. apply str_eqb_eq. reflexivity.
Qed.

(** X3. The upload filter and the parser know the same four media types: a
    type the filter lets through reaches one of the three extraction
    branches of [parseResumeContent], and for every other type the parser
    fails with "Unsupported file type: " followed by the type, whatever the
    input. *)
Theorem upload_filter_matches_parser (mime : str) :
  (fileFilter mime = Ok true <-> In mime allowedTypes)
  /\ (fileFilter mime = Ok true ->
      forall host input,
        extractText host input mime = extractFromPDF host input
        \/ extractText host input mime = extractFromWord host input
        \/ extractText host input mime
           = (if negb (includes input (js "/")) && negb (includes input [92%N])
              then Ok input else readFileUtf8 host input))
  /\ (fileFilter mime <> Ok true ->
      forall toLowerCase host input,
        parseResumeContent toLowerCase host input mime
        = Err (js "Unsupported file type: " ++ mime)).
Proof.
  assert (Hiff : fileFilter mime = Ok true <-> In mime allowedTypes).
  { unfold fileFilter. rewrite <- existsb_allowed.
    destruct (existsb (str_eqb mime) allowedTypes); split; auto; discriminate. }
  split; [exact Hiff|]. split.
  - intros H host input. apply Hiff in H. simpl in H.
    destruct H as [<- | [<- | [<- | [<- | []]]]]; auto.
  - intros H toLowerCase host input.
    assert (Hn : existsb (str_eqb mime) allowedTypes = false).
    { destruct (existsb (str_eqb mime) allowedTypes) eqn:E; auto.
      contradiction H. unfold fileFilter. rewrite E. reflexivity. }
    simpl in Hn. rewrite orb_false_r in Hn.
    apply orb_false_iff in Hn. destruct Hn as [H1 Hn].
    apply orb_false_iff in Hn. destruct Hn as [H2 Hn].
    apply orb_false_iff in Hn. destruct Hn as [H3 H4].
    unfold parseResumeContent, extractText.
    change (js "text/plain") with textPlain in H4 |- *.
    rewrite H1, H2, H3, H4. reflexivity.
Qed.

Lemma upload_filter_matches_parser_witness :
  fileFilter (js "image/png")
  = Err (js "Invalid file type. Only PDF, DOC, DOCX, and TXT files are allowed.")
  /\ parseResumeContent asciiLower noFiles (js "photo.png") (js "image/png")
     = Err (js "Unsupported file type: image/png")
  /\ (extractText noFiles (js "cv.pdf") (js "application/pdf")
      = extractFromPDF noFiles (js "cv.pdf")
      \/ extractText noFiles (js "cv.pdf") (js "application/pdf")
         = extractFromWord noFiles (js "cv.pdf")
      \/ extractText noFiles (js "cv.pdf") (js "application/pdf")
         = (if negb (includes (js "cv.pdf") (js "/"))
               && negb (includes (js "cv.pdf") [92%N])
            then Ok (js "cv.pdf") else readFileUtf8 noFiles (js "cv.pdf"))).
Proof.
  split; [reflexivity|]. split.
  - apply (proj2 (proj2 (upload_filter_matches_parser (js "image/png")))).
    discriminate.
  - exact (proj1 (proj2 (upload_filter_matches_parser (js "application/pdf")))
             eq_refl noFiles (js "cv.pdf")).
Defined.

(* ------------------------------------------------------------------ *)
(** ** What the matcher returns is matched by the pattern *)

Section Sound.
Variable icase : bool.
Variable A : Type.

Lemma star_sound (c : cls) (s : str) :
  forall (prev : option N) (k : cont A) (a : A),
    star icase c prev s k = Some a ->
    exists w t p,
      s = w ++ t /\ forallb (cls_mem icase c) w = true /\ k p t = Some a.
Proof.
  induction s as [|x s IH]; intros prev k a; simpl.
  - intro H. exists [], [], prev. auto.
  - destruct (cls_mem icase c x) eqn:Ex.
    + destruct (star icase c (Some x) s k) as [r|] eqn:E.
      * intro H. injection H as ->.
        destruct (IH _ _ _ E) as (w & t & p & -> & Hw & Hk).
        exists (x :: w), t, p. simpl. rewrite Ex, Hw. auto.
      * intro H. exists [], (x :: s), prev. auto.
    + intro H. exists [], (x :: s), prev. auto.
Qed.

Lemma run_sound (r : regex) :
  forall (prev : option N) (s : str) (k : cont A) (a : A),
    run icase r prev s k = Some a ->
    exists w t p, s = w ++ t /\ lang icase r w /\ k p t = Some a.
Proof.
  induction r as [|c|r1 IH1 r2 IH2|r1 IH1 r2 IH2|r1 IH1|c| |];
    intros prev s k a; simpl.
  - intro H. exists [], s, prev. auto.
  - destruct s as [|x s]; [discriminate|].
    destruct (cls_mem icase c x) eqn:Ex; [|discriminate].
    intro H. exists [x], s, (Some x). repeat split; auto. exists x. auto.
  - intro H. destruct (IH1 _ _ _ _ H) as (u & t & p & -> & Hu & H2).
    destruct (IH2 _ _ _ _ H2) as (v & t' & p' & -> & Hv & Hk).
    exists (u ++ v), t', p'. rewrite app_assoc. repeat split; auto.
    exists u, v. auto.
  - destruct (run icase r1 prev s k) as [x|] eqn:E.
    + intro H. injection H as ->.
      destruct (IH1 _ _ _ _ E) as (w & t & p & -> & Hw & Hk).
      exists w, t, p. auto.
    + intro H. destruct (IH2 _ _ _ _ H) as (w & t & p & -> & Hw & Hk).
      exists w, t, p. auto.
  - destruct (run icase r1 prev s k) as [x|] eqn:E.
    + intro H. injection H as ->.
      destruct (IH1 _ _ _ _ E) as (w & t & p & -> & Hw & Hk).
      exists w, t, p. auto.
    + intro H. exists [], s, prev. auto.
  - apply star_sound.
  - destruct prev; [discriminate|]. intro H. exists [], s, None. auto.
  - destruct (xorb (isWordBefore prev) (isWordAt s)); [|discriminate].
    intro H. exists [], s, prev. auto.
Qed.
End Sound.

Lemma firstn_app_exact (w t : str) : firstn (length (w ++ t) - length t) (w ++ t) = w.
Proof.
  rewrite length_app, Nat.add_sub.
  rewrite firstn_app, Nat.sub_diag, firstn_all. simpl. apply app_nil_r.
Qed.

Lemma run_match (icase : bool) (r : regex) (prev : option N) (s t : str) :
  run icase r prev s (fun _ rest => Some rest) = Some t ->
  lang icase r (firstn (length s - length t) s)
  /\ occursIn (firstn (length s - length t) s) s.
Proof.
  intro E. destruct (run_sound _ _ _ _ _ _ _ E) as (w & t' & p & Hs & Hw & Hk).
  injection Hk as ->. rewrite Hs, firstn_app_exact. split; auto.
  exists [], t. reflexivity.
Qed.

Lemma exec_from_sound (icase : bool) (r : regex) (s : str) :
  forall prev m,
    exec_from icase r prev s = Some m -> lang icase r m /\ occursIn m s.
Proof.
  induction s as [|x s IH]; intros prev m; cbn [exec_from].
  - destruct (run icase r prev [] (fun _ t => Some t)) as [t|] eqn:E; [|discriminate].
    intro H. injection H as <-. exact (run_match icase r prev [] t E).
  - destruct (run icase r prev (x :: s) (fun _ t => Some t)) as [t|] eqn:E.
    + intro H. injection H as <-. exact (run_match icase r prev (x :: s) t E).
    + intro H. destruct (IH _ _ H) as (Hl & b & a & ->). split; auto.
      exists (x :: b), a. reflexivity.
Qed.

(** A match is a string of the pattern's language and occurs in the line. *)
Lemma exec_sound (icase : bool) (r : regex) (s m : str) :
  exec icase r s = Some m -> lang icase r m /\ occursIn m s.
Proof. apply exec_from_sound. Qed.

Lemma lang_minLen (icase : bool) (r : regex) :
  forall w, lang icase r w -> minLen r <= length w.
Proof.
  induction r as [|c|r1 IH1 r2 IH2|r1 IH1 r2 IH2|r1 IH1|c| |]; intro w; simpl;
    try lia.
  - intros (x & -> & _). simpl. lia.
  - intros (u & v & -> & Hu & Hv). rewrite length_app.
    specialize (IH1 _ Hu). specialize (IH2 _ Hv). lia.
  - intros [H | H]; [specialize (IH1 _ H) | specialize (IH2 _ H)]; lia.
Qed.

Lemma exec_nonempty (icase : bool) (r : regex) (s m : str) :
  1 <= minLen r -> exec icase r s = Some m -> m <> [].
Proof.
  intros Hr H. apply exec_sound in H. destruct H as [H _].
  apply lang_minLen in H. intros ->. simpl in H. lia.
Qed.

Lemma cls_mem_one (c x : N) : cls_mem false [CU c] x = true -> x = c.
Proof.
  unfold cls_mem. simpl. rewrite orb_false_r. intro H.
  apply N.eqb_eq in H. auto.
Qed.

Lemma cls_mem_digit (x : N) : cls_mem false [Cd] x = true -> isDigit x = true.
Proof. unfold cls_mem. simpl. rewrite orb_false_r. auto. Qed.

(** X4. The year of a certification is either empty or four digits that
    start with 19 or 20 and occur in the line. *)
Theorem extractYear_shape (line : str) :
  extractYear line = []
  \/ exists c d,
       (extractYear line = js "19" ++ [c; d] \/ extractYear line = js "20" ++ [c; d])
       /\ isDigit c = true /\ isDigit d = true
       /\ occursIn (extractYear line) line.
Proof.
  unfold extractYear. destruct (exec false yearRegex line) as [m|] eqn:E; auto.
  right. apply exec_sound in E. destruct E as [Hl Ho].
  cbv -[cls_mem app] in Hl.
  destruct Hl as (u0 & v0 & -> & -> & u1 & v1 & -> & Halt & u2 & v2 & -> & H2 & u3 & v3
                  & -> & -> & ->).
  destruct H2 as (c1 & r1 & -> & (c & -> & Hc) & d1 & r2 & -> & (d & -> & Hd) & ->).
  apply cls_mem_digit in Hc. apply cls_mem_digit in Hd.
  exists c, d. simpl in Ho |- *. repeat split; auto.
  destruct Halt as [Ha | Ha];
    destruct Ha as (a1 & b1 & -> & (x & -> & Hx) & a2 & b2 & -> & (y & -> & Hy) & ->);
    apply cls_mem_one in Hx; apply cls_mem_one in Hy; subst; auto.
Qed.

(* ------------------------------------------------------------------ *)
(** ** Basic information *)

Ltac split_matches :=
  repeat match goal with
         | |- context [match ?x with _ => _ end] => destruct x eqn:?; simpl
         end.

Lemma contactStep_fields (r : ResumeData) (line : str) :
  name (contactStep r line) = name r
  /\ role (contactStep r line) = role r
  /\ email (contactStep r line)
     = (if isEmpty (email r) then
          match exec false emailRegex line with Some m => m | None => [] end
        else email r)
  /\ phone (contactStep r line)
     = (if isEmpty (phone r) then
          match exec false phoneRegex line with Some m => m | None => [] end
        else phone r)
  /\ linkedin (contactStep r line)
     = (if isEmpty (linkedin r) then
          match exec true linkedinRegex line with
          | Some m => js "https://" ++ m
          | None => []
          end
        else linkedin r)
  /\ location (contactStep r line)
     = (if isEmpty (location r) then if isLocationLine line then line else []
        else location r).
Proof.
  unfold contactStep, isEmpty.
  destruct r as [n ro p e l lo ? ? ? ? ? ? ? ? ?]. cbn [email phone linkedin location].
  destruct (exec false emailRegex line), (exec false phoneRegex line),
    (exec true linkedinRegex line), (isLocationLine line), e, p, l, lo;
    simpl; repeat split; reflexivity.
Qed.

Lemma isLocationLine_nonempty (line : str) : isLocationLine line = true -> line <> [].
Proof.
  unfold isLocationLine, locationPatterns. simpl existsb.
  rewrite !orb_true_iff.
  intros [H | [H | [H | H]]]; try discriminate;
    apply test_minLen in H;
    match type of H with
    | minLen ?r <= _ =>
        let n := eval vm_compute in (minLen r) in
        change (minLen r) with n in H
    end; intros ->; simpl in H; lia.
Qed.

Lemma isEmpty_false (s : str) : s <> [] -> isEmpty s = false.
Proof. destruct s; [intro H; contradiction H; auto | reflexivity]. Qed.

(** The contact loop from any record: a field that is set stays, an empty
    one takes the first match. *)
Lemma fold_contactStep (lines : list str) :
  forall r,
    let r' := fold_left contactStep lines r in
    name r' = name r
    /\ role r' = role r
    /\ email r' = (if isEmpty (email r)
                   then orEmpty (firstExec false emailRegex lines) else email r)
    /\ phone r' = (if isEmpty (phone r)
                   then orEmpty (firstExec false phoneRegex lines) else phone r)
    /\ linkedin r' = (if isEmpty (linkedin r)
                      then match firstExec true linkedinRegex lines with
                           | Some m => js "https://" ++ m
                           | None => []
                           end
                      else linkedin r)
    /\ location r' = (if isEmpty (location r)
                      then orEmpty (find isLocationLine lines) else location r).
Proof.
  induction lines as [|line rest IH]; intro r; cbn [fold_left firstExec find].
  - cbn zeta. repeat split; destruct r as [? ? p e l lo]; simpl;
      [destruct e | destruct p | destruct l | destruct lo]; reflexivity.
  - specialize (IH (contactStep r line)). cbn zeta in IH |- *.
    destruct (contactStep_fields r line) as (Hn & Hr & He & Hp & Hl & Ho).
    destruct IH as (In & Ir & Ie & Ip & Il & Io).
    rewrite In, Ir, Ie, Ip, Il, Io, Hn, Hr, He, Hp, Hl, Ho.
    repeat split.
    + destruct (isEmpty (email r)) eqn:E0; [|rewrite E0; reflexivity].
      destruct (exec false emailRegex line) as [m|] eqn:E; [|reflexivity].
      rewrite isEmpty_false; [reflexivity|].
      apply (exec_nonempty false emailRegex line m); [vm_compute; lia | exact E].
    + destruct (isEmpty (phone r)) eqn:E0; [|rewrite E0; reflexivity].
      destruct (exec false phoneRegex line) as [m|] eqn:E; [|reflexivity].
      rewrite isEmpty_false; [reflexivity|].
      apply (exec_nonempty false phoneRegex line m); [vm_compute; lia | exact E].
    + destruct (isEmpty (linkedin r)) eqn:E0; [|rewrite E0; reflexivity].
      destruct (exec true linkedinRegex line) as [m|] eqn:E; reflexivity.
    + destruct (isEmpty (location r)) eqn:E0; [|rewrite E0; reflexivity].
      destruct (isLocationLine line) eqn:E; [|reflexivity].
      rewrite isEmpty_false; [reflexivity|]. apply isLocationLine_nonempty, E.
Qed.

Lemma roleLoop_fields (toLowerCase : str -> str) (candidates : list str)
    (r : ResumeData) :
  let r' := roleLoop toLowerCase candidates r in
  name r' = name r /\ email r' = email r /\ phone r' = phone r
  /\ linkedin r' = linkedin r /\ location r' = location r
  /\ role r' = (if isEmpty (role r)
                then orEmpty (find (isRoleLine toLowerCase) candidates)
                else role r).
Proof.
  induction candidates as [|line rest IH]; cbn [roleLoop find].
  - cbn zeta. repeat split. destruct (role r); reflexivity.
  - destruct (isRoleLine toLowerCase line); cbn [andb].
    + destruct (isEmpty (role r)) eqn:E; [cbn zeta; simpl; auto 10|].
      destruct IH as (? & ? & ? & ? & ? & Hr).
      repeat split; auto.
    + exact IH.
Qed.

Lemma extractBasicInfo_firstn (toLowerCase : str -> str) (lines : list str)
    (r : ResumeData) :
  extractBasicInfo toLowerCase lines r
  = extractBasicInfo toLowerCase (firstn 10 lines) r.
Proof.
  unfold extractBasicInfo. destruct lines as [|first rest]; [reflexivity|].
  change (firstn 10 (first :: rest)) with (first :: firstn 9 rest).
  change (firstn 10 (first :: firstn 9 rest))
    with (first :: firstn 9 (firstn 9 rest)).
  cbn [tl]. rewrite !firstn_firstn. reflexivity.
Qed.

Lemma extractBasicInfo_fields (toLowerCase : str -> str) (lines : list str) :
  let r := extractBasicInfo toLowerCase lines emptyResume in
  name r = hd [] lines
  /\ email r = orEmpty (firstExec false emailRegex (firstn 10 lines))
  /\ phone r = orEmpty (firstExec false phoneRegex (firstn 10 lines))
  /\ linkedin r = match firstExec true linkedinRegex (firstn 10 lines) with
                  | Some m => js "https://" ++ m
                  | None => []
                  end
  /\ location r = orEmpty (find isLocationLine (firstn 10 lines))
  /\ role r = orEmpty (find (isRoleLine toLowerCase) (firstn 4 (tl lines))).
Proof.
  cbn zeta. split; [|split; [|split; [|split; [|split]]]];
    unfold extractBasicInfo;
    set (r0 := match lines with first :: _ => set_name first emptyResume
                           | [] => emptyResume end);
    assert (H0 : name r0 = hd [] lines /\ email r0 = [] /\ phone r0 = []
                 /\ linkedin r0 = [] /\ location r0 = [] /\ role r0 = [])
      by (subst r0; destruct lines; simpl; auto 10);
    destruct H0 as (H1 & H2 & H3 & H4 & H5 & H6);
    destruct (roleLoop_fields toLowerCase (firstn 4 (tl lines))
                (fold_left contactStep (firstn 10 lines) r0))
      as (Hn & He & Hp & Hl & Ho & Hr);
    destruct (fold_contactStep (firstn 10 lines) r0) as (Fn & Fr & Fe & Fp & Fl & Fo);
    cbn zeta in *.
  - rewrite Hn, Fn. exact H1.
  - rewrite He, Fe, H2. reflexivity.
  - rewrite Hp, Fp, H3. reflexivity.
  - rewrite Hl, Fl, H4. reflexivity.
  - rewrite Ho, Fo, H5. reflexivity.
  - rewrite Hr, Fr, H6. reflexivity.
Qed.

(** X5. The basic-information extractor takes, for each contact field, the
    first match among the first ten lines, and the role from the first role
    line among lines two to five; later matches and later lines are never
    used.  The LinkedIn value is the match with [https://] put before it. *)
Theorem basic_info_first_match (toLowerCase : str -> str) (lines : list str) :
  let r := extractBasicInfo toLowerCase lines emptyResume in
  name r = hd [] lines
  /\ email r = orEmpty (firstExec false emailRegex (firstn 10 lines))
  /\ phone r = orEmpty (firstExec false phoneRegex (firstn 10 lines))
  /\ linkedin r = match firstExec true linkedinRegex (firstn 10 lines) with
                  | Some m => js "https://" ++ m
                  | None => []
                  end
  /\ location r = orEmpty (find isLocationLine (firstn 10 lines))
  /\ role r = orEmpty (find (isRoleLine toLowerCase) (firstn 4 (tl lines)))
  /\ r = extractBasicInfo toLowerCase (firstn 10 lines) emptyResume.
Proof.
  cbn zeta.
  destruct (extractBasicInfo_fields toLowerCase lines) as (A & B & C & D & E & F).
  cbn zeta in *. repeat split; auto.
  apply extractBasicInfo_firstn.
Qed.

Lemma lang_minDigits (r : regex) :
  forall w, lang false r w -> minDigits r <= length (filter isDigit w).
Proof.
  induction r as [|c|r1 IH1 r2 IH2|r1 IH1 r2 IH2|r1 IH1|c| |]; intro w; simpl;
    try lia.
  - intros (x & -> & Hx).
    destruct c as [|[| | | |] [|? ?]]; simpl; try lia.
    apply cls_mem_digit in Hx. rewrite Hx. simpl. lia.
  - intros (u & v & -> & Hu & Hv). rewrite filter_app, length_app.
    specialize (IH1 _ Hu). specialize (IH2 _ Hv). lia.
  - intros [H | H]; [specialize (IH1 _ H) | specialize (IH2 _ H)]; lia.
Qed.

Lemma isDigit_not_space (c : N) : isDigit c = true -> isWhiteSpace c = false.
Proof.
  unfold isDigit, isWhiteSpace, between. intro H.
  apply andb_true_iff in H. destruct H as [H1 H2].
  apply N.leb_le in H1. apply N.leb_le in H2.
  repeat (apply orb_false_iff; split);
    first [ apply N.eqb_neq; lia
          | apply andb_false_iff; right; apply N.leb_gt; lia
          | apply andb_false_iff; left; apply N.leb_gt; lia ].
Qed.

Lemma has_text_not_blank (s : str) (c : N) :
  In c s -> isWhiteSpace c = false -> isBlank s = false.
Proof.
  intros Hc Hw. unfold isBlank. destruct s as [|x s]; [destruct Hc|]. simpl.
  destruct (trim (x :: s)) eqn:E; auto.
  apply trim_nil_iff in E. rewrite forallb_forall in E.
  rewrite (E c Hc) in Hw. discriminate.
Qed.

Lemma email_match_shape (line m : str) :
  exec false emailRegex line = Some m ->
  exists local domain tld,
    m = local ++ js "@" ++ domain ++ js "." ++ tld
    /\ local <> [] /\ domain <> [] /\ 2 <= length tld.
Proof.
  intro H. apply exec_sound in H. destruct H as [Hl _].
  cbv -[cls_mem app forallb] in Hl.
  destruct Hl as (u0 & v0 & -> & -> & u1 & v1 & -> & Hlocal & u2 & v2 & -> & Hat
                  & u3 & v3 & -> & Hdom & u4 & v4 & -> & Hdot & u5 & v5 & -> & Htld
                  & u6 & v6 & -> & -> & ->).
  destruct Hat as (x & -> & Hx). apply cls_mem_one in Hx. subst x.
  destruct Hdot as (x & -> & Hx). apply cls_mem_one in Hx. subst x.
  exists u1, u3, u5. simpl. rewrite !app_nil_r. repeat split.
  - destruct Hlocal as (a & b & -> & (a1 & b1 & -> & (x & -> & _) & ->) & _).
    discriminate.
  - destruct Hdom as (a & b & -> & (a1 & b1 & -> & (x & -> & _) & ->) & _).
    discriminate.
  - destruct Htld as (a & b & -> & (a1 & b1 & -> & (x & -> & _) & a2 & b2 & ->
                                     & (y & -> & _) & ->) & _).
    simpl. lia.
Qed.

Lemma phone_match_digits (line m : str) :
  exec false phoneRegex line = Some m -> 10 <= length (filter isDigit m).
Proof.
  intro H. apply exec_sound in H. destruct H as [Hl _].
  apply lang_minDigits in Hl.
  match type of Hl with
  | minDigits ?r <= _ =>
      let n := eval vm_compute in (minDigits r) in
      change (minDigits r) with n in Hl
  end. exact Hl.
Qed.

(** X6. An e-mail address the extractor finds is a part of the line made of
    a non-empty local part, an at sign, a non-empty domain, a dot and at
    least two more code units; a telephone number it finds is a part of the
    line with at least ten digits. *)
Theorem contact_match_shape (line m : str) :
  (exec false emailRegex line = Some m ->
   occursIn m line
   /\ exists local domain tld,
        m = local ++ js "@" ++ domain ++ js "." ++ tld
        /\ local <> [] /\ domain <> [] /\ 2 <= length tld)
  /\ (exec false phoneRegex line = Some m ->
      occursIn m line /\ 10 <= length (filter isDigit m)).
Proof.
  split; intro H; split.
  - apply exec_sound in H. apply H.
  - apply email_match_shape with (line := line), H.
  - apply exec_sound in H. apply H.
  - apply phone_match_digits with (line := line), H.
Qed.

Lemma contact_match_shape_witness :
  occursIn (js "jane@x.com") (js "mail: jane@x.com, tel. (555) 123 4567")
  /\ 10 <= length (filter isDigit (js "(555) 123 4567")).
Proof.
  split.
  - exact (proj1 (proj1 (contact_match_shape
                           (js "mail: jane@x.com, tel. (555) 123 4567")
                           (js "jane@x.com")) eq_refl)).
  - exact (proj2 (proj2 (contact_match_shape
                           (js "mail: jane@x.com, tel. (555) 123 4567")
                           (js "(555) 123 4567")) eq_refl)).
Defined.

(* ------------------------------------------------------------------ *)
(** ** More on the segmenter *)

Section Segmenter.
Variable toLowerCase : str -> str.

(** A line the segmenter does not take for a header. *)
Let plain (line : str) : Prop :=
  detected (detectSectionHeader (toLowerCase line) sectionKeywords) = None.

Lemma fold_plain_lines (body : list str) :
  Forall plain body ->
  forall st,
    fold_left (segStep toLowerCase) body st
    = if truthy (currentSection st)
      then mkSeg (currentSection st) (sectionContent st ++ body) (resume st)
      else st.
Proof.
  induction 1 as [|line body Hl Hb IH]; intro st; simpl.
  - rewrite app_nil_r. destruct st; simpl. destruct (truthy _); reflexivity.
  - rewrite IH. unfold segStep. unfold plain in Hl. rewrite Hl.
    destruct (truthy (currentSection st)) eqn:E; simpl; rewrite E; auto.
    rewrite <- app_assoc. reflexivity.
Qed.

Lemma extractSections_plain_prefix (before rest : list str) (r : ResumeData) :
  Forall plain before ->
  extractSections toLowerCase (before ++ rest) r = extractSections toLowerCase rest r.
Proof.
  intro H. unfold extractSections. rewrite fold_left_app.
  rewrite (fold_plain_lines before H). reflexivity.
Qed.

Lemma extractSections_last_section (before body : list str) (header section : str)
    (r : ResumeData) :
  detected (detectSectionHeader (toLowerCase header) sectionKeywords) = Some section ->
  Forall plain body ->
  extractSections toLowerCase (before ++ header :: body) r
  = if 0 <? length body
    then processSectionContent toLowerCase section body
           (extractSections toLowerCase before r)
    else extractSections toLowerCase before r.
Proof.
  intros Hh Hb. unfold extractSections. rewrite fold_left_app. simpl fold_left.
  rewrite (fold_plain_lines body Hb).
  set (st := fold_left (segStep toLowerCase) before (mkSeg [] [] r)).
  assert (Hstep : segStep toLowerCase st header
                  = mkSeg section [] (flushSection toLowerCase st)).
  { unfold segStep. rewrite Hh. reflexivity. }
  rewrite Hstep.
  assert (Ht : truthy section = true).
  { unfold detected in Hh.
    destruct (detectSectionHeader (toLowerCase header) sectionKeywords) as [[|c s]|];
      try discriminate. injection Hh as <-. reflexivity. }
  cbn [currentSection sectionContent resume app]. rewrite Ht.
  unfold flushSection at 1. cbn [currentSection sectionContent resume].
  rewrite Ht. reflexivity.
Qed.

Lemma processSectionContent_override (section : str) (first second : list str)
    (r : ResumeData) :
  processSectionContent toLowerCase section second
    (processSectionContent toLowerCase section first r)
  = processSectionContent toLowerCase section second r.
Proof.
  unfold processSectionContent.
  repeat match goal with
         | |- context [if str_eqb section ?k then _ else _] =>
             destruct (str_eqb section k); [reflexivity|]
         end.
  reflexivity.
Qed.

Lemma processSectionContent_contact (section : str) (content : list str)
    (r : ResumeData) :
  let r' := processSectionContent toLowerCase section content r in
  name r' = name r /\ role r' = role r /\ phone r' = phone r
  /\ email r' = email r /\ linkedin r' = linkedin r /\ location r' = location r.
Proof.
  unfold processSectionContent.
  repeat match goal with
         | |- context [if str_eqb section ?k then _ else _] =>
             destruct (str_eqb section k); [simpl; auto 10|]
         end.
  simpl; auto 10.
Qed.

Lemma extractSections_contact (lines : list str) (r : ResumeData) :
  let r' := extractSections toLowerCase lines r in
  name r' = name r /\ role r' = role r /\ phone r' = phone r
  /\ email r' = email r /\ linkedin r' = linkedin r /\ location r' = location r.
Proof.
  assert (Hflush : forall st,
             let r' := flushSection toLowerCase st in
             name r' = name (resume st) /\ role r' = role (resume st)
             /\ phone r' = phone (resume st) /\ email r' = email (resume st)
             /\ linkedin r' = linkedin (resume st)
             /\ location r' = location (resume st)).
  { intro st. unfold flushSection.
    destruct (truthy (currentSection st) && (0 <? length (sectionContent st)));
      [apply processSectionContent_contact | simpl; auto 10]. }
  unfold extractSections.
  assert (Hfold : forall st,
             let r' := resume (fold_left (segStep toLowerCase) lines st) in
             name r' = name (resume st) /\ role r' = role (resume st)
             /\ phone r' = phone (resume st) /\ email r' = email (resume st)
             /\ linkedin r' = linkedin (resume st)
             /\ location r' = location (resume st)).
  { induction lines as [|line rest IH]; intro st; simpl; [auto 10|].
    destruct (IH (segStep toLowerCase st line)) as (A & B & C & D & E & F).
    rewrite A, B, C, D, E, F. unfold segStep.
    destruct (detected _).
    - apply Hflush.
    - destruct (truthy (currentSection st)); simpl; auto 10. }
  cbn zeta. destruct (Hflush (fold_left (segStep toLowerCase) lines (mkSeg [] [] r)))
    as (A & B & C & D & E & F).
  destruct (Hfold (mkSeg [] [] r)) as (A' & B' & C' & D' & E' & F').
  cbn zeta in *. simpl resume in *.
  rewrite A, B, C, D, E, F. auto 10.
Qed.
End Segmenter.

(** X7. Lines before the first section header belong to no section: the
    segmenter gives the same record with or without them, and a text with no
    header at all leaves the record as it was. *)
Theorem lines_before_first_header (toLowerCase : str -> str)
    (before rest : list str) (r : ResumeData) :
  Forall (fun line =>
            detected (detectSectionHeader (toLowerCase line) sectionKeywords) = None)
         before ->
  extractSections toLowerCase (before ++ rest) r = extractSections toLowerCase rest r
  /\ extractSections toLowerCase before r = r.
Proof.
  intro H. split.
  - apply extractSections_plain_prefix, H.
  - rewrite <- (app_nil_r before).
    rewrite (extractSections_plain_prefix toLowerCase before [] r H). reflexivity.
Qed.

Lemma lines_before_first_header_witness :
  extractSections asciiLower ([js "Jane Doe"; js "jane@x.com"] ++ [js "SKILLS"; js "Go"])
    emptyResume
  = extractSections asciiLower [js "SKILLS"; js "Go"] emptyResume
  /\ extractSections asciiLower [js "Jane Doe"; js "jane@x.com"] emptyResume
     = emptyResume.
Proof.
  apply (lines_before_first_header asciiLower [js "Jane Doe"; js "jane@x.com"]
           [js "SKILLS"; js "Go"] emptyResume).
  repeat constructor.
Defined.

(** X8. The segmenter works section by section: when the text ends with a
    header followed by lines none of which is a header, the record is the one
    of the text before that header, with the last section's parser applied to
    those lines; if no line follows the header, the header changes
    nothing. *)
Theorem last_section_is_applied_last (toLowerCase : str -> str)
    (before body : list str) (header section : str) (r : ResumeData) :
  detected (detectSectionHeader (toLowerCase header) sectionKeywords) = Some section ->
  Forall (fun line =>
            detected (detectSectionHeader (toLowerCase line) sectionKeywords) = None)
         body ->
  extractSections toLowerCase (before ++ header :: body) r
  = (if 0 <? length body
     then processSectionContent toLowerCase section body
            (extractSections toLowerCase before r)
     else extractSections toLowerCase before r)
  /\ extractSections toLowerCase (before ++ [header]) r
     = extractSections toLowerCase before r.
Proof.
  intros Hh Hb. split.
  - apply extractSections_last_section; assumption.
  - rewrite (extractSections_last_section toLowerCase before [] header section r Hh);
      [reflexivity | constructor].
Qed.

Lemma last_section_is_applied_last_witness :
  extractSections asciiLower ([js "SUMMARY"; js "Builds things."] ++ js "SKILLS" :: [js "Go"])
    emptyResume
  = processSectionContent asciiLower (js "skills") [js "Go"]
      (extractSections asciiLower [js "SUMMARY"; js "Builds things."] emptyResume).
Proof.
  apply (last_section_is_applied_last asciiLower [js "SUMMARY"; js "Builds things."]
           [js "Go"] (js "SKILLS") (js "skills") emptyResume).
  - reflexivity.
  - repeat constructor.
Defined.

Section Repeated.
Variable toLowerCase : str -> str.
Variable section : str.

(** Two records that the parser of [section] cannot tell apart: they agree
    on every field but the one this parser assigns. *)
Let sameBut (r1 r2 : ResumeData) : Prop :=
  forall content,
    processSectionContent toLowerCase section content r1
    = processSectionContent toLowerCase section content r2.

Lemma sameBut_override_left (content : list str) (r1 r2 : ResumeData) :
  sameBut r1 r2 ->
  sameBut (processSectionContent toLowerCase section content r1) r2.
Proof.
  intros H c. rewrite processSectionContent_override. apply H.
Qed.

Lemma sameBut_override_right (content : list str) (r1 r2 : ResumeData) :
  sameBut r1 r2 ->
  sameBut r1 (processSectionContent toLowerCase section content r2).
Proof.
  intros H c. rewrite processSectionContent_override. apply H.
Qed.

(** The parsers of the sections assign different fields, so running any of
    them on both records keeps the records indistinguishable. *)
Lemma sameBut_process (other : str) (content : list str) (r1 r2 : ResumeData) :
  sameBut r1 r2 ->
  sameBut (processSectionContent toLowerCase other content r1)
          (processSectionContent toLowerCase other content r2).
Proof.
  intros H c. specialize (H []). revert H. unfold processSectionContent.
  destruct r1, r2.
  repeat match goal with
         | |- context [if str_eqb ?s ?k then _ else _] => destruct (str_eqb s k)
         end;
    unfold set_summary, set_experience, set_education, set_skills, set_achievements,
      set_projects, set_certifications, set_courses;
    cbn [name role phone email linkedin location summary experience education
         achievements skills languages projects courses certifications];
    intro H; injection H; intros; subst; reflexivity.
Qed.

(** Two runs of the segmenter in step: the same current section, records the
    parser of [section] cannot tell apart, and the same buffer unless the
    current section is [section]. *)
Let inStep (st1 st2 : SegState) : Prop :=
  currentSection st1 = currentSection st2
  /\ sameBut (resume st1) (resume st2)
  /\ (sectionContent st1 = sectionContent st2 \/ currentSection st1 = section).

Lemma flushSection_inStep (st1 st2 : SegState) :
  inStep st1 st2 ->
  sameBut (flushSection toLowerCase st1) (flushSection toLowerCase st2).
Proof.
  intros (Hc & Hr & [Hb | Hs]); unfold flushSection; rewrite <- Hc.
  - rewrite <- Hb.
    destruct (truthy (currentSection st1) && (0 <? length (sectionContent st1)));
      [apply sameBut_process|]; exact Hr.
  - rewrite Hs.
    destruct (truthy section && (0 <? length (sectionContent st1)));
      destruct (truthy section && (0 <? length (sectionContent st2)));
      try apply sameBut_override_left; try apply sameBut_override_right; exact Hr.
Qed.

Lemma segStep_inStep (st1 st2 : SegState) (line : str) :
  inStep st1 st2 ->
  inStep (segStep toLowerCase st1 line) (segStep toLowerCase st2 line).
Proof.
  intro H. pose proof (flushSection_inStep st1 st2 H) as Hf.
  destruct H as (Hc & Hr & Hb). unfold segStep.
  destruct (detected (detectSectionHeader (toLowerCase line) sectionKeywords)).
  - repeat split; auto.
  - rewrite <- Hc. destruct (truthy (currentSection st1)).
    + repeat split; auto. simpl. destruct Hb as [-> | Hs]; auto.
    + repeat split; auto.
Qed.

Lemma fold_inStep (lines : list str) :
  forall st1 st2,
    inStep st1 st2 ->
    inStep (fold_left (segStep toLowerCase) lines st1)
           (fold_left (segStep toLowerCase) lines st2).
Proof.
  induction lines as [|line rest IH]; intros st1 st2 H; simpl; auto.
  apply IH, segStep_inStep, H.
Qed.

(** The buffer of the earlier header does not reach the record once the same
    section is flushed again with a body. *)
Lemma extractSections_forgets (before first mid second tail : list str)
    (header1 header2 : str) (r : ResumeData) :
  detected (detectSectionHeader (toLowerCase header1) sectionKeywords) = Some section ->
  detected (detectSectionHeader (toLowerCase header2) sectionKeywords) = Some section ->
  Forall (fun line =>
            detected (detectSectionHeader (toLowerCase line) sectionKeywords) = None)
         first ->
  Forall (fun line =>
            detected (detectSectionHeader (toLowerCase line) sectionKeywords) = None)
         second ->
  second <> [] ->
  match tail with
  | [] => True
  | next :: _ =>
      detected (detectSectionHeader (toLowerCase next) sectionKeywords) <> None
  end ->
  extractSections toLowerCase
    (before ++ header1 :: first ++ mid ++ header2 :: second ++ tail) r
  = extractSections toLowerCase
      (before ++ header1 :: mid ++ header2 :: second ++ tail) r.
Proof.
  intros H1 H2 Hfirst Hsecond Hne Htail.
  assert (Ht : truthy section = true).
  { unfold detected in H1.
    destruct (detectSectionHeader (toLowerCase header1) sectionKeywords) as [[|c s]|];
      try discriminate. injection H1 as <-. reflexivity. }
  unfold extractSections. rewrite !fold_left_app. cbn [fold_left].
  rewrite !fold_left_app.
  set (st0 := fold_left (segStep toLowerCase) before (mkSeg [] [] r)).
  assert (Hs0 : segStep toLowerCase st0 header1
                = mkSeg section [] (flushSection toLowerCase st0)).
  { unfold segStep. rewrite H1. reflexivity. }
  rewrite Hs0. rewrite (fold_plain_lines toLowerCase first Hfirst).
  cbn [currentSection sectionContent resume app]. rewrite Ht.
  set (A1 := mkSeg section first (flushSection toLowerCase st0)).
  set (A2 := mkSeg section [] (flushSection toLowerCase st0)).
  assert (HA : inStep A1 A2).
  { subst A1 A2. split; [reflexivity|]. split; [intro c; reflexivity|].
    right. reflexivity. }
  apply fold_inStep with (lines := mid) in HA.
  set (B1 := fold_left (segStep toLowerCase) mid A1) in *.
  set (B2 := fold_left (segStep toLowerCase) mid A2) in *.
  cbn [fold_left]. rewrite !fold_left_app.
  assert (HC : forall B, segStep toLowerCase B header2
                         = mkSeg section [] (flushSection toLowerCase B)).
  { intro B. unfold segStep. rewrite H2. reflexivity. }
  rewrite !HC. rewrite !(fold_plain_lines toLowerCase second Hsecond).
  cbn [currentSection sectionContent resume app]. rewrite Ht.
  assert (HD : flushSection toLowerCase
                 (mkSeg section second (flushSection toLowerCase B1))
               = flushSection toLowerCase
                   (mkSeg section second (flushSection toLowerCase B2))).
  { unfold flushSection at 1 3. cbn [currentSection sectionContent resume].
    rewrite Ht. destruct second as [|l second]; [contradiction Hne; auto|].
    cbn [length Nat.ltb Nat.leb andb].
    apply (flushSection_inStep B1 B2 HA). }
  destruct tail as [|next tail]; [exact HD|].
  cbn [fold_left].
  assert (HN : forall D, segStep toLowerCase D next
                         = mkSeg (currentSection (segStep toLowerCase D next)) []
                             (flushSection toLowerCase D)).
  { intro D. unfold segStep.
    destruct (detected (detectSectionHeader (toLowerCase next) sectionKeywords));
      [reflexivity | contradiction Htail; reflexivity]. }
  rewrite (HN (mkSeg section second (flushSection toLowerCase B1))).
  rewrite (HN (mkSeg section second (flushSection toLowerCase B2))).
  rewrite HD.
  assert (Hcur : forall D D',
             currentSection (segStep toLowerCase D next)
             = currentSection (segStep toLowerCase D' next)).
  { intros D D'. unfold segStep.
    destruct (detected (detectSectionHeader (toLowerCase next) sectionKeywords));
      [reflexivity | contradiction Htail; reflexivity]. }
  rewrite (Hcur _ (mkSeg section second (flushSection toLowerCase B2))).
  reflexivity.
Qed.

(** A header directly followed by another header has an empty body, and is
    as good as absent. *)
Lemma extractSections_skips_empty (before rest : list str) (header1 header2 : str)
    (other : str) (r : ResumeData) :
  detected (detectSectionHeader (toLowerCase header1) sectionKeywords) = Some section ->
  detected (detectSectionHeader (toLowerCase header2) sectionKeywords) = Some other ->
  extractSections toLowerCase (before ++ header1 :: header2 :: rest) r
  = extractSections toLowerCase (before ++ header2 :: rest) r.
Proof.
  intros H1 H2. unfold extractSections. rewrite !fold_left_app. cbn [fold_left].
  set (st0 := fold_left (segStep toLowerCase) before (mkSeg [] [] r)).
  assert (Hs : segStep toLowerCase (segStep toLowerCase st0 header1) header2
               = segStep toLowerCase st0 header2).
  { unfold segStep. rewrite H1, H2. unfold flushSection at 1.
    cbn [currentSection sectionContent resume length Nat.ltb Nat.leb].
    rewrite andb_false_r. reflexivity. }
  rewrite Hs. reflexivity.
Qed.
End Repeated.

(** X9. A section whose header occurs again later, with a non-empty body,
    loses what stood under the earlier header: the record is the one of the
    same text without the lines under the earlier header, whatever lies
    between the two headers (other sections included) and whatever follows
    the later body.  When the later header comes right after the earlier
    body, the earlier header can be left out as well. *)
Theorem repeated_section_keeps_last (toLowerCase : str -> str)
    (before first between second tail : list str) (header1 header2 section : str)
    (r : ResumeData) :
  detected (detectSectionHeader (toLowerCase header1) sectionKeywords) = Some section ->
  detected (detectSectionHeader (toLowerCase header2) sectionKeywords) = Some section ->
  Forall (fun line =>
            detected (detectSectionHeader (toLowerCase line) sectionKeywords) = None)
         first ->
  Forall (fun line =>
            detected (detectSectionHeader (toLowerCase line) sectionKeywords) = None)
         second ->
  second <> [] ->
  match tail with
  | [] => True
  | next :: _ =>
      detected (detectSectionHeader (toLowerCase next) sectionKeywords) <> None
  end ->
  extractSections toLowerCase
    (before ++ header1 :: first ++ between ++ header2 :: second ++ tail) r
  = extractSections toLowerCase
      (before ++ header1 :: between ++ header2 :: second ++ tail) r
  /\ extractSections toLowerCase
       (before ++ header1 :: first ++ header2 :: second ++ tail) r
     = extractSections toLowerCase (before ++ header2 :: second ++ tail) r.
Proof.
  intros H1 H2 Hfirst Hsecond Hne Htail. split.
  - apply extractSections_forgets with (section := section); assumption.
  - pose proof (extractSections_forgets toLowerCase section before first [] second
                  tail header1 header2 r H1 H2 Hfirst Hsecond Hne Htail) as H.
    cbn [app] in H. rewrite H.
    apply extractSections_skips_empty with (section := section) (other := section);
      assumption.
Qed.

Lemma repeated_section_keeps_last_witness :
  extractSections asciiLower
    ([js "Jane Doe"] ++ js "EXPERIENCE" :: [js "Senior Developer"; js "acme corp"]
       ++ [js "SKILLS"; js "Go, Rust"] ++ js "More experience"
       :: [js "Junior Developer"] ++ [js "EDUCATION"; js "Bachelor of Arts"])
    emptyResume
  = extractSections asciiLower
      ([js "Jane Doe"] ++ js "EXPERIENCE" :: [js "SKILLS"; js "Go, Rust"]
         ++ js "More experience" :: [js "Junior Developer"]
         ++ [js "EDUCATION"; js "Bachelor of Arts"])
      emptyResume
  /\ map Exp.title
       (experience
          (extractSections asciiLower
             ([js "Jane Doe"] ++ js "EXPERIENCE"
                :: [js "Senior Developer"; js "acme corp"]
                ++ [js "SKILLS"; js "Go, Rust"] ++ js "More experience"
                :: [js "Junior Developer"] ++ [js "EDUCATION"; js "Bachelor of Arts"])
             emptyResume))
     = [js "Junior Developer"].
Proof.
  split; [|reflexivity].
  apply (repeated_section_keeps_last asciiLower [js "Jane Doe"]
           [js "Senior Developer"; js "acme corp"] [js "SKILLS"; js "Go, Rust"]
           [js "Junior Developer"] [js "EDUCATION"; js "Bachelor of Arts"]
           (js "EXPERIENCE") (js "More experience") (js "experience") emptyResume).
  - reflexivity.
  - reflexivity.
  - repeat constructor.
  - repeat constructor.
  - discriminate.
  - discriminate.
Defined.

(* ------------------------------------------------------------------ *)
(** ** The contact fields of the returned record *)

Lemma text_line_not_blank (text line : str) :
  In line (textLines text) -> isBlank line = false.
Proof.
  intro H. destruct (textLines_raw _ _ H) as (Hne & raw & _ & ->).
  unfold isBlank. rewrite trim_idempotent. rewrite (isEmpty_false _ Hne). reflexivity.
Qed.

Lemma firstExec_exec (icase : bool) (r : regex) (lines : list str) (m : str) :
  firstExec icase r lines = Some m ->
  exists line, In line lines /\ exec icase r line = Some m.
Proof.
  induction lines as [|l rest IH]; simpl; [discriminate|].
  destruct (exec icase r l) as [x|] eqn:E.
  - intro H. injection H as ->. exists l. auto.
  - intro H. destruct (IH H) as (line & Hl & He). exists line. auto.
Qed.

Lemma orDefault_keeps (s : str) (p : string) : isBlank s = false -> orDefault s p = s.
Proof. unfold orDefault. intros ->. reflexivity. Qed.

Lemma tl_incl (A : Type) (l : list A) : incl (tl l) l.
Proof. destruct l; intros x H; [exact H | right; exact H]. Qed.

(** X10. The contact fields of the record the parser returns: the name is
    the first line of the text; e-mail, telephone and location are the first
    match among the first ten lines and the role the first role line among
    lines two to five, each replaced by its placeholder only when there is no
    match; the LinkedIn address has no placeholder.  No section of the text
    changes any of them. *)
Theorem parsed_contact_fields (toLowerCase : str -> str) (text : str) :
  let lines := textLines text in
  let r := parseTextToStructuredData toLowerCase text in
  name r = match lines with
           | first :: _ => first
           | [] => js "Your Name"
           end
  /\ email r = match firstExec false emailRegex (firstn 10 lines) with
               | Some m => m
               | None => js "your.email@example.com"
               end
  /\ phone r = match firstExec false phoneRegex (firstn 10 lines) with
               | Some m => m
               | None => js "123-456-7890"
               end
  /\ linkedin r = match firstExec true linkedinRegex (firstn 10 lines) with
                  | Some m => js "https://" ++ m
                  | None => []
                  end
  /\ location r = match find isLocationLine (firstn 10 lines) with
                  | Some line => line
                  | None => js "Your City, Country"
                  end
  /\ role r = match find (isRoleLine toLowerCase) (firstn 4 (tl lines)) with
              | Some line => line
              | None => js "Professional Role"
              end.
Proof.
  cbn zeta. unfold parseTextToStructuredData.
  set (lines := textLines text).
  destruct (extractSections_contact toLowerCase lines
              (extractBasicInfo toLowerCase lines emptyResume))
    as (Sn & Sr & Sp & Se & Sl & So).
  destruct (extractBasicInfo_fields toLowerCase lines)
    as (Bn & Be & Bp & Bl & Bo & Br).
  cbn zeta in *. unfold cleanResumeData.
  cbn [name email phone linkedin location role].
  rewrite Sn, Sr, Sp, Se, Sl, So, Bn, Be, Bp, Bl, Bo, Br.
  repeat split.
  - destruct lines as [|first rest] eqn:E; [reflexivity|].
    apply orDefault_keeps, (text_line_not_blank text). fold lines. rewrite E.
    left. reflexivity.
  - destruct (firstExec false emailRegex (firstn 10 lines)) as [m|] eqn:E;
      [|reflexivity].
    apply orDefault_keeps. apply firstExec_exec in E. destruct E as (line & _ & E).
    apply email_match_shape in E. destruct E as (lo & d & t & -> & _).
    apply has_text_not_blank with (c := ch "@"); [|reflexivity].
    apply in_or_app. right. left. reflexivity.
  - destruct (firstExec false phoneRegex (firstn 10 lines)) as [m|] eqn:E;
      [|reflexivity].
    apply orDefault_keeps. apply firstExec_exec in E. destruct E as (line & _ & E).
    apply phone_match_digits in E.
    destruct (filter isDigit m) as [|c ds] eqn:Ef; [simpl in E; lia|].
    assert (Hc : In c (filter isDigit m)) by (rewrite Ef; left; reflexivity).
    apply filter_In in Hc. destruct Hc as [Hc Hd].
    apply has_text_not_blank with (c := c); [exact Hc | apply isDigit_not_space, Hd].
  - destruct (find isLocationLine (firstn 10 lines)) as [line|] eqn:E; [|reflexivity].
    apply orDefault_keeps, (text_line_not_blank text).
    apply find_some in E. destruct E as [E _]. apply firstn_incl in E. exact E.
  - destruct (find (isRoleLine toLowerCase) (firstn 4 (tl lines))) as [line|] eqn:E;
      [|reflexivity].
    apply orDefault_keeps, (text_line_not_blank text).
    apply find_some in E. destruct E as [E _]. apply firstn_incl, tl_incl in E.
    exact E.
Qed.

(* ------------------------------------------------------------------ *)
(** ** Education entries *)

Section Education.
Variable toLowerCase : str -> str.

Lemma fold_routeEdu (body : list str) :
  forall e,
    fold_left (routeEdu toLowerCase) body e
    = Edu.mk (Edu.degree e)
        (lastOr (Edu.institution e) (filter (isInstitution toLowerCase) body))
        (lastOr (Edu.duration e)
           (filter (fun l => negb (isInstitution toLowerCase l) && isDateRange l) body))
        (lastOr (Edu.location e)
           (filter (fun l => negb (isInstitution toLowerCase l)
                             && negb (isDateRange l) && isLocation l) body)).
Proof.
  induction body as [|line body IH]; intro e; cbn [fold_left filter].
  - destruct e; reflexivity.
  - rewrite IH. unfold routeEdu.
    destruct (isInstitution toLowerCase line); cbn [negb andb]; [reflexivity|].
    destruct (isDateRange line); cbn [negb andb]; [reflexivity|].
    destruct (isLocation line); reflexivity.
Qed.

Lemma eduLoop_groups (content : list str) :
  forall education currentEdu,
    eduLoop toLowerCase content education currentEdu
    = education
      ++ match currentEdu with
         | Some e =>
             [fold_left (routeEdu toLowerCase)
                (bodyOf (isDegree toLowerCase) content) e]
         | None => []
         end
      ++ map (fun g => fold_left (routeEdu toLowerCase) (snd g) (newEdu (fst g)))
           (groupsOf (isDegree toLowerCase) content).
Proof.
  induction content as [|line rest IH]; intros education currentEdu; simpl.
  - destruct currentEdu; simpl; auto. rewrite app_nil_r. reflexivity.
  - destruct (isDegree toLowerCase line) eqn:Et.
    + rewrite IH. simpl.
      destruct currentEdu; simpl; auto. rewrite <- app_assoc. reflexivity.
    + destruct currentEdu; rewrite IH; reflexivity.
Qed.

Lemma parseEducation_groups (content : list str) :
  parseEducation toLowerCase content
  = map (eduEntry toLowerCase) (groupsOf (isDegree toLowerCase) content).
Proof.
  unfold parseEducation. rewrite eduLoop_groups. simpl.
  apply map_ext. intros [t body]. rewrite fold_routeEdu. reflexivity.
Qed.

Lemma not_institution_length (line : str) :
  isInstitution toLowerCase line = false -> length line <= 5 \/ 100 <= length line.
Proof.
  unfold isInstitution. intro H. apply orb_false_iff in H. destruct H as [_ H].
  apply andb_false_iff in H. destruct H as [H | H]; apply Nat.ltb_ge in H; lia.
Qed.
End Education.

(** X11. [parseEducation] makes one entry per degree line.  Its institution
    is the last following line, before the next degree line, that has an
    institution keyword or more than 5 and fewer than 100 code units; so a
    duration can only be a line of 100 code units or more, and a location
    only a line of 4 or 5. *)
Theorem education_entries (toLowerCase : str -> str) (content : list str) :
  parseEducation toLowerCase content
  = map (eduEntry toLowerCase) (groupsOf (isDegree toLowerCase) content)
  /\ forall e,
       In e (parseEducation toLowerCase content) ->
       (In (Edu.degree e) content /\ isDegree toLowerCase (Edu.degree e) = true)
       /\ (Edu.institution e <> [] -> In (Edu.institution e) content)
       /\ (Edu.duration e <> [] ->
           In (Edu.duration e) content /\ 100 <= length (Edu.duration e))
       /\ (Edu.location e <> [] ->
           In (Edu.location e) content /\ 4 <= length (Edu.location e) <= 5).
Proof.
  split; [apply parseEducation_groups|].
  intros e He. rewrite parseEducation_groups in He.
  apply in_map_iff in He. destruct He as ([t body] & <- & Hg).
  destruct (groupsOf_incl _ _ _ Hg) as [Ht Hbody]. simpl in Ht, Hbody.
  unfold eduEntry. cbn [fst snd Edu.degree Edu.institution Edu.duration Edu.location].
  split; [exact Ht|]. split; [|split].
  - intro Hn.
    destruct (lastOr_filter (isInstitution toLowerCase) [] body) as [H | [Hin _]];
      [contradiction|]. apply (Hbody _ Hin).
  - intro Hn.
    destruct (lastOr_filter
                (fun l => negb (isInstitution toLowerCase l) && isDateRange l) [] body)
      as [H | [Hin Hp]]; [contradiction|].
    split; [apply (Hbody _ Hin)|].
    apply andb_true_iff in Hp. destruct Hp as [Hi Hd].
    apply negb_true_iff, not_institution_length in Hi.
    apply isDateRange_length in Hd.
    destruct Hi as [Hi | Hi]; [|exact Hi].
    pose proof (Nat.le_trans _ _ _ Hd Hi) as Habs. lia.
  - intro Hn.
    destruct (lastOr_filter
                (fun l => negb (isInstitution toLowerCase l)
                          && negb (isDateRange l) && isLocation l) [] body)
      as [H | [Hin Hp]]; [contradiction|].
    split; [apply (Hbody _ Hin)|].
    apply andb_true_iff in Hp. destruct Hp as [Hp Hl].
    apply andb_true_iff in Hp. destruct Hp as [Hi _].
    apply negb_true_iff, not_institution_length in Hi.
    unfold isLocation in Hl.
    apply andb_true_iff in Hl. destruct Hl as [Hl _].
    apply andb_true_iff in Hl. destruct Hl as [H3 H50].
    apply Nat.ltb_lt in H3. apply Nat.ltb_lt in H50.
    destruct Hi as [Hi | Hi].
    + split; [exact H3 | exact Hi].
    + pose proof (Nat.le_lt_trans _ _ _ Hi H50) as Habs. lia.
Qed.

Lemma education_entries_witness :
  parseEducation asciiLower
    [js "Bachelor of Science"; js "MIT"; js "2018-2022"; js "Rome"]
  = [Edu.mk (js "Bachelor of Science") (js "2018-2022") [] (js "Rome")]
  /\ (In (js "Rome") [js "Bachelor of Science"; js "MIT"; js "2018-2022"; js "Rome"]
      /\ 4 <= length (js "Rome") <= 5).
Proof.
  split; [reflexivity|].
  apply (proj2 (proj2 (proj2 (proj2 (education_entries asciiLower
           [js "Bachelor of Science"; js "MIT"; js "2018-2022"; js "Rome"])
           (Edu.mk (js "Bachelor of Science") (js "2018-2022") [] (js "Rome"))
           (or_introl eq_refl))))).
  discriminate.
Defined.

(* ------------------------------------------------------------------ *)
(** ** Project entries *)

Lemma join_as_concat (sep : str) (parts : list str) :
  forall p, join sep (p :: parts) = p ++ concat (map (app sep) parts).
Proof.
  induction parts as [|q rest IH]; intro p.
  - simpl. rewrite app_nil_r. reflexivity.
  - rewrite join_cons by discriminate. rewrite IH. simpl.
    rewrite <- app_assoc. reflexivity.
Qed.

Lemma fold_description (lines : list str) :
  forall d,
    d <> [] ->
    fold_left (fun acc l => acc ++ (if truthy acc then js " " else []) ++ l) lines d
    = d ++ concat (map (app (js " ")) lines).
Proof.
  induction lines as [|l rest IH]; intros d Hd; simpl fold_left.
  - simpl. rewrite app_nil_r. reflexivity.
  - rewrite IH.
    + destruct d; [contradiction Hd; auto|]. simpl. rewrite <- !app_assoc.
      reflexivity.
    + destruct d; [contradiction Hd; auto|]. discriminate.
Qed.

Lemma fold_description_join (lines : list str) :
  Forall (fun l => l <> []) lines ->
  fold_left (fun acc l => acc ++ (if truthy acc then js " " else []) ++ l) lines []
  = join (js " ") lines.
Proof.
  destruct 1 as [|l rest Hl Hrest]; [reflexivity|].
  simpl fold_left. rewrite fold_description by exact Hl.
  rewrite join_as_concat. reflexivity.
Qed.

Lemma fold_routeProject (body : list str) :
  forall p,
    fold_left routeProject body p
    = Proj.mk (Proj.title p)
        (fold_left (fun acc l => acc ++ (if truthy acc then js " " else []) ++ l)
           (filter (fun l => negb (isDateRange l) && (10 <? length l)) body)
           (Proj.description p))
        (lastOr (Proj.duration p) (filter isDateRange body)).
Proof.
  induction body as [|line body IH]; intro p; cbn [fold_left filter].
  - destruct p; reflexivity.
  - rewrite IH. unfold routeProject.
    destruct (isDateRange line); cbn [negb andb]; [reflexivity|].
    destruct (10 <? length line); reflexivity.
Qed.

Lemma projLoop_groups (content : list str) :
  forall projects currentProject,
    projLoop content projects currentProject
    = projects
      ++ match currentProject with
         | Some p => [fold_left routeProject (bodyOf isProjectTitle content) p]
         | None => []
         end
      ++ map (fun g => fold_left routeProject (snd g) (newProject (fst g)))
           (groupsOf isProjectTitle content).
Proof.
  induction content as [|line rest IH]; intros projects currentProject; simpl.
  - destruct currentProject; simpl; auto. rewrite app_nil_r. reflexivity.
  - destruct (isProjectTitle line) eqn:Et.
    + rewrite IH. simpl.
      destruct currentProject; simpl; auto. rewrite <- app_assoc. reflexivity.
    + destruct currentProject; rewrite IH; reflexivity.
Qed.

(** X12. [parseProjects] makes one entry per title line (more than 5 and
    fewer than 100 code units, first one in A-Z).  Of the lines that follow,
    up to the next title, the last date range is the duration, and the other
    lines of more than 10 code units, joined by single spaces, are the
    description; shorter lines are dropped. *)
Theorem project_entries (content : list str) :
  parseProjects content = map projEntry (groupsOf isProjectTitle content)
  /\ forall p,
       In p (parseProjects content) ->
       In (Proj.title p) content
       /\ 5 < length (Proj.title p) < 100
       /\ (Proj.duration p <> [] ->
           In (Proj.duration p) content /\ isDateRange (Proj.duration p) = true).
Proof.
  assert (Heq : parseProjects content = map projEntry (groupsOf isProjectTitle content)).
  { unfold parseProjects. rewrite projLoop_groups. simpl.
    apply map_ext. intros [t body]. rewrite fold_routeProject.
    unfold projEntry. cbn [fst snd newProject Proj.title Proj.description Proj.duration].
    rewrite fold_description_join; [reflexivity|].
    apply Forall_forall. intros l Hl. apply filter_In in Hl. destruct Hl as [_ Hl].
    apply andb_true_iff in Hl. destruct Hl as [_ Hl]. apply Nat.ltb_lt in Hl.
    intros ->. simpl in Hl. lia. }
  split; [exact Heq|].
  intros p Hp. rewrite Heq in Hp.
  apply in_map_iff in Hp. destruct Hp as ([t body] & <- & Hg).
  destruct (groupsOf_incl _ _ _ Hg) as [[Ht1 Ht2] Hbody]. simpl in Ht1, Ht2, Hbody.
  unfold projEntry. cbn [fst snd Proj.title Proj.description Proj.duration].
  split; [exact Ht1|]. split.
  - unfold isProjectTitle in Ht2.
    apply andb_true_iff in Ht2. destruct Ht2 as [Ht2 _].
    apply andb_true_iff in Ht2. destruct Ht2 as [H5 H100].
    apply Nat.ltb_lt in H5. apply Nat.ltb_lt in H100. lia.
  - intro Hn. destruct (lastOr_filter isDateRange [] body) as [H | [Hin Hd]];
      [contradiction|].
    split; [apply (Hbody _ Hin) | exact Hd].
Qed.

Lemma project_entries_witness :
  parseProjects
    [js "Resume Builder"; js "2020 - 2021"; js "parses uploaded files.";
     js "renders them to PDF."; js "done"]
  = [Proj.mk (js "Resume Builder")
       (js "parses uploaded files. renders them to PDF.") (js "2020 - 2021")]
  /\ In (js "Resume Builder")
       [js "Resume Builder"; js "2020 - 2021"; js "parses uploaded files.";
        js "renders them to PDF."; js "done"].
Proof.
  split; [reflexivity|].
  exact (proj1 (proj2 (project_entries
           [js "Resume Builder"; js "2020 - 2021"; js "parses uploaded files.";
            js "renders them to PDF."; js "done"])
           (Proj.mk (js "Resume Builder")
              (js "parses uploaded files. renders them to PDF.") (js "2020 - 2021"))
           (or_introl eq_refl))).
Defined.

(* ------------------------------------------------------------------ *)
(** ** Skills *)
Lemma split_round (done : list N) (text : str) (sep : N) (items : list str) :
  Forall (fun it => (forall c, In c done -> ~ In c it) /\ occursIn it text) items ->
  Forall (fun it => (forall c, In c (sep :: done) -> ~ In c it) /\ occursIn it text)
         (flat_map (split sep) items).
Proof.
  intro H. apply Forall_forall. intros piece Hp.
  apply in_flat_map in Hp. destruct Hp as (it & Hit & Hp).
  rewrite Forall_forall in H. destruct (H it Hit) as [Hdone Hocc]. split.
  - intros c [<- | Hc].
    + pose proof (split_no_sep sep it) as Hf. rewrite Forall_forall in Hf.
      apply Hf, Hp.
    + pose proof (split_keeps_out c sep it (Hdone c Hc)) as Hf.
      rewrite Forall_forall in Hf. apply Hf, Hp.
  - apply occursIn_trans with (b := it); [apply split_piece_occurs with sep, Hp|].
    exact Hocc.
Qed.

Lemma split_rounds (text : str) (seps : list N) :
  forall done items,
    Forall (fun it => (forall c, In c done -> ~ In c it) /\ occursIn it text) items ->
    Forall (fun it => (forall c, In c (done ++ seps) -> ~ In c it)
                      /\ occursIn it text)
           (fold_left (fun items sep => flat_map (split sep) items) seps items).
Proof.
  induction seps as [|sep rest IH]; intros done items H; simpl.
  - rewrite app_nil_r. exact H.
  - apply split_round with (sep := sep) in H. apply IH in H.
    eapply Forall_impl; [|exact H]. intros it [Hc Ho]. split; auto.
    intros c Hin. apply Hc. apply in_app_or in Hin. apply in_or_app.
    destruct Hin as [Hin | [<- | Hin]]; [left; right | left; left | right]; auto.
Qed.

(** X13. Every skill [parseSkills] returns is a piece of the section's text
    with no separator inside (comma, bullet, middle dot, bar, line feed,
    semicolon) and no white space at either end, and the normalizer's
    filter keeps it. *)
Theorem skills_are_clean_pieces (content : list str) (skill : str) :
  In skill (parseSkills content) ->
  (forall sep, In sep skillSeparators -> ~ In sep skill)
  /\ occursIn skill (join (js " ") content)
  /\ trim skill = skill
  /\ hasText skill = true.
Proof.
  unfold parseSkills. intro H. apply filter_In in H. destruct H as [H Hlen].
  apply in_map_iff in H. destruct H as (item & <- & Hitem).
  pose proof (split_rounds (join (js " ") content) skillSeparators [] [join (js " ") content])
    as Hinv.
  assert (H0 : Forall (fun it => (forall c, In c [] -> ~ In c it)
                                 /\ occursIn it (join (js " ") content))
                      [join (js " ") content]).
  { constructor; [|constructor]. split; [intros c []|].
    exists [], []. simpl. rewrite app_nil_r. reflexivity. }
  specialize (Hinv H0). rewrite Forall_forall in Hinv.
  destruct (Hinv item Hitem) as [Hsep Hocc]. simpl app in Hsep.
  repeat split.
  - intros sep Hin. apply (occursIn_not_In _ _ _ (trim_occurs item)). auto.
  - apply occursIn_trans with (b := item); [apply trim_occurs | exact Hocc].
  - apply trim_idempotent.
  - unfold hasText. rewrite trim_idempotent.
    apply andb_true_iff in Hlen. destruct Hlen as [Hlen _].
    apply Nat.ltb_lt in Hlen.
    destruct (trim item) as [|c t]; [simpl in Hlen; lia | reflexivity].
Qed.

Lemma skills_are_clean_pieces_witness :
  In (js "Go") (parseSkills [js "Python, Go; Rust | Docker"])
  /\ ~ In (ch ";") (js "Go")
  /\ hasText (js "Go") = true.
Proof.
  split; [right; left; reflexivity|].
  pose proof (skills_are_clean_pieces [js "Python, Go; Rust | Docker"] (js "Go")
                (or_intror (or_introl eq_refl))) as H.
  split.
  - apply (proj1 H). right. right. right. right. right. left. reflexivity.
  - apply (proj2 (proj2 (proj2 H))).
Defined.

(* ------------------------------------------------------------------ *)
(** ** Achievement titles *)

Lemma join_firstn_prefix (sep : str) (n : nat) :
  forall parts, prefixOf (join sep (firstn n parts)) (join sep parts).
Proof.
  induction n as [|n IH]; intros [|p rest]; try (exists []; reflexivity).
  - exists (join sep (p :: rest)). reflexivity.
  - destruct rest as [|q rest].
    + destruct n; exists []; simpl; rewrite app_nil_r; reflexivity.
    + destruct n as [|n].
      * exists (sep ++ join sep (q :: rest)). reflexivity.
      * specialize (IH (q :: rest)). destruct IH as [tail Ht].
        change (firstn (S (S n)) (p :: q :: rest))
          with (p :: firstn (S n) (q :: rest)).
        change (firstn (S n) (q :: rest)) with (q :: firstn n rest) in Ht |- *.
        rewrite (join_cons sep p (q :: firstn n rest)) by discriminate.
        rewrite (join_cons sep p (q :: rest)) by discriminate. rewrite Ht.
        exists tail. rewrite <- !app_assoc. reflexivity.
Qed.

Lemma count_in_join (sep : N) (parts : list str) :
  Forall (fun piece => ~ In sep piece) parts ->
  length (filter (N.eqb sep) (join [sep] parts)) = length parts - 1.
Proof.
  assert (Hpiece : forall piece, ~ In sep piece -> filter (N.eqb sep) piece = []).
  { induction piece as [|c piece IH]; simpl; auto. intro H.
    destruct (N.eqb_spec sep c) as [->|_]; [contradiction H; auto|].
    apply IH. intro; apply H; auto. }
  induction 1 as [|p rest Hp Hrest IH]; [reflexivity|].
  destruct rest as [|q rest].
  - simpl. rewrite Hpiece by exact Hp. reflexivity.
  - rewrite join_cons by discriminate. rewrite !filter_app, !length_app.
    rewrite Hpiece by exact Hp. rewrite IH. simpl. rewrite N.eqb_refl. simpl. lia.
Qed.

Lemma join_app (sep : str) (xs ys : list str) :
  xs <> [] -> ys <> [] ->
  join sep (xs ++ ys) = join sep xs ++ sep ++ join sep ys.
Proof.
  intros Hx Hy. induction xs as [|p xs IH]; [contradiction Hx; auto|].
  destruct xs as [|q xs].
  - simpl app. rewrite join_cons by exact Hy. reflexivity.
  - change ((p :: q :: xs) ++ ys) with (p :: (q :: xs) ++ ys).
    rewrite (join_cons sep p ((q :: xs) ++ ys)) by discriminate.
    rewrite (join_cons sep p (q :: xs)) by discriminate.
    rewrite IH by discriminate. rewrite <- !app_assoc. reflexivity.
Qed.

(** X14. The title of an achievement is its line up to, and without, the
    third space: a line with at most two spaces is its own title, and a line
    with three or more is the title, which has exactly two spaces, followed
    by a space and the rest.  In both cases the title is a prefix of the line
    with at most two spaces. *)
Theorem achievement_title_is_prefix (line : str) :
  prefixOf (extractAchievementTitle line) line
  /\ length (filter (N.eqb 32) (extractAchievementTitle line)) <= 2
  /\ (length (filter (N.eqb 32) line) <= 2 -> extractAchievementTitle line = line)
  /\ (3 <= length (filter (N.eqb 32) line) ->
      length (filter (N.eqb 32) (extractAchievementTitle line)) = 2
      /\ exists rest, line = extractAchievementTitle line ++ 32%N :: rest).
Proof.
  unfold extractAchievementTitle.
  change (js " ") with [32%N]. change (ch " ") with 32%N.
  pose proof (split_no_sep 32%N line) as Hparts.
  assert (Hfirst : Forall (fun piece => ~ In 32%N piece) (firstn 3 (split 32%N line))).
  { rewrite Forall_forall in *. intros piece Hp. apply Hparts.
    apply firstn_incl in Hp. exact Hp. }
  split; [|split; [|split]].
  - rewrite <- (join_split 32%N line) at 2. apply join_firstn_prefix.
  - rewrite count_in_join by exact Hfirst.
    pose proof (firstn_le_length 3 (split 32%N line)). lia.
  - intro H. rewrite <- (join_split 32%N line) in H.
    rewrite count_in_join in H by exact Hparts.
    rewrite firstn_all2 by lia. apply join_split.
  - intro H. rewrite <- (join_split 32%N line) in H.
    rewrite count_in_join in H by exact Hparts.
    assert (Hlen : length (firstn 3 (split 32%N line)) = 3)
      by (apply firstn_length_le; lia).
    split.
    + rewrite count_in_join by exact Hfirst. rewrite Hlen. reflexivity.
    + exists (join [32%N] (skipn 3 (split 32%N line))).
      rewrite <- (join_split 32%N line) at 1.
      rewrite <- (firstn_skipn 3 (split 32%N line)) at 1.
      rewrite join_app.
      * reflexivity.
      * intro E. rewrite E in Hlen. discriminate.
      * intro E. apply (f_equal (@length str)) in E. rewrite length_skipn in E.
        simpl in E. lia.
Qed.

Lemma achievement_title_is_prefix_witness :
  extractAchievementTitle (js "Won the prize") = js "Won the prize"
  /\ (length (filter (N.eqb 32)
                (extractAchievementTitle (js "Employee of the month 2020"))) = 2
      /\ exists rest,
           js "Employee of the month 2020"
           = extractAchievementTitle (js "Employee of the month 2020") ++ 32%N :: rest).
Proof.
  split.
  - exact (proj1 (proj2 (proj2 (achievement_title_is_prefix (js "Won the prize"))))
             (le_n 2)).
  - apply (proj2 (proj2 (proj2 (achievement_title_is_prefix
                                  (js "Employee of the month 2020"))))).
    vm_compute. lia.
Defined.

(* ------------------------------------------------------------------ *)
(** ** The normalizer after the entry parsers *)

Lemma hasText_not_blank (s : str) : hasText s = negb (isBlank s).
Proof.
  unfold hasText, isBlank, truthy. destruct s as [|c s]; [reflexivity|].
  simpl isEmpty. destruct (trim (c :: s)); reflexivity.
Qed.

Lemma filter_all (A : Type) (f : A -> bool) (l : list A) :
  (forall x, In x l -> f x = true) -> filter f l = l.
Proof.
  induction l as [|x l IH]; intro H; simpl; auto.
  rewrite (H x (or_introl eq_refl)), IH; auto.
  intros y Hy. apply H. right. exact Hy.
Qed.

(** A line that starts with a capital letter has text. *)
Lemma startsUpper_hasText (line : str) :
  test false startsUpper line = true -> hasText line = true.
Proof.
  unfold test. destruct (exec false startsUpper line) as [m|] eqn:E; [|discriminate].
  intros _. apply exec_sound in E. destruct E as [Hl (b & a & ->)].
  cbv -[cls_mem app] in Hl.
  destruct Hl as (u & v & -> & -> & u1 & v1 & -> & (x & -> & Hx) & ->).
  rewrite hasText_not_blank.
  rewrite (has_text_not_blank _ x); [reflexivity | |].
  - apply in_or_app. right. left. reflexivity.
  - unfold cls_mem in Hx. simpl in Hx. rewrite !orb_false_r in Hx.
    unfold between in Hx. apply andb_true_iff in Hx. destruct Hx as [H1 H2].
    apply N.leb_le in H1. apply N.leb_le in H2.
    unfold isWhiteSpace, between.
    repeat (apply orb_false_iff; split);
      first [ apply N.eqb_neq; lia
            | apply andb_false_iff; right; apply N.leb_gt; lia
            | apply andb_false_iff; left; apply N.leb_gt; lia ].
Qed.

(** X15. The normalizer removes nothing the entry parsers produce for
    experience, projects and skills: every title they give starts with a
    capital letter and every skill has text, so the three filters keep the
    parsed sequences whole. *)
Theorem normalizer_keeps_parsed_entries (content : list str) (r : ResumeData) :
  experience (cleanResumeData (set_experience (parseExperience content) r))
  = parseExperience content
  /\ projects (cleanResumeData (set_projects (parseProjects content) r))
     = parseProjects content
  /\ skills (cleanResumeData (set_skills (parseSkills content) r))
     = parseSkills content.
Proof.
  unfold cleanResumeData. simpl. split; [|split]; apply filter_all.
  - intros e He. rewrite parseExperience_groups in He.
    apply in_map_iff in He. destruct He as ([t body] & <- & Hg).
    destruct (groupsOf_incl _ _ _ Hg) as [[_ Ht] _]. simpl in Ht |- *.
    unfold isJobTitle in Ht. apply andb_true_iff in Ht. destruct Ht as [_ Ht].
    apply startsUpper_hasText, Ht.
  - intros p Hp. unfold parseProjects in Hp. rewrite projLoop_groups in Hp.
    simpl in Hp. apply in_map_iff in Hp. destruct Hp as ([t body] & <- & Hg).
    destruct (groupsOf_incl _ _ _ Hg) as [[_ Ht] _]. simpl in Ht.
    rewrite fold_routeProject. simpl.
    unfold isProjectTitle in Ht. apply andb_true_iff in Ht. destruct Ht as [_ Ht].
    apply startsUpper_hasText, Ht.
  - intros skill Hs. unfold parseSkills in Hs. apply filter_In in Hs.
    destruct Hs as [Hs Hlen]. apply in_map_iff in Hs. destruct Hs as (item & <- & _).
    unfold hasText. rewrite trim_idempotent.
    apply andb_true_iff in Hlen. destruct Hlen as [Hlen _]. apply Nat.ltb_lt in Hlen.
    destruct (trim item) as [|c t]; [simpl in Hlen; lia | reflexivity].
Qed.

(* ------------------------------------------------------------------ *)
(** ** Completeness of a stored resume *)

Lemma round_of_tenths (n : nat) :
  n <= 10 ->
  Math_round (PrimFloat.mul (PrimFloat.div (numberOfNat n) (numberOfNat 10))
                (numberOfNat 100))
  = Some (10 * Z.of_nat n)%Z.
Proof.
  intro H. do 11 (destruct n as [|n]; [vm_compute; reflexivity|]). lia.
Qed.

Lemma b2n_le_1 (b : bool) : Nat.b2n b <= 1.
Proof. destruct b; simpl; lia. Qed.

Lemma completenessScore_le (doc : ResumeData) : completenessScore doc <= 10.
Proof.
  unfold completenessScore.
  repeat match goal with
         | |- context [Nat.b2n ?b] =>
             let H := fresh in
             pose proof (b2n_le_1 b) as H; generalize dependent (Nat.b2n b); intros
         end.
  lia.
Qed.

Lemma truthy_nonempty (s : str) : s <> [] -> Nat.b2n (truthy s) = 1.
Proof. destruct s; [intro H; contradiction H; auto | reflexivity]. Qed.

(** X16. The completeness percentage is ten times the number of filled
    fields among the ten it counts: the floating-point division and product
    round back to that integer.  It lies between 0 and 100, is at least 70
    for a resume that [isComplete] accepts, and at least 40 for every record
    the parser returns, whose name, e-mail, telephone and role are never
    empty. *)
Theorem completeness_percentage (doc : ResumeData) :
  getCompletenessPercentage doc = Some (10 * Z.of_nat (completenessScore doc))%Z
  /\ completenessScore doc <= 10
  /\ (isComplete doc = true -> 7 <= completenessScore doc)
  /\ (forall toLowerCase host input mime,
        parseResumeContent toLowerCase host input mime = Ok doc ->
        4 <= completenessScore doc).
Proof.
  pose proof (completenessScore_le doc) as Hle.
  split; [apply round_of_tenths, Hle|]. split; [exact Hle|]. split.
  - unfold isComplete, completenessScore. intro H.
    repeat (apply andb_true_iff in H; destruct H as [H ?]).
    repeat match goal with
           | E : ?b = true |- _ => rewrite E; clear E
           end.
    simpl. lia.
  - intros toLowerCase host input mime H.
    apply parseResumeContent_Ok in H. destruct H as (text & _ & _ & ->).
    destruct (cleanResumeData_required
                (extractSections toLowerCase (textLines text)
                   (extractBasicInfo toLowerCase (textLines text) emptyResume)))
      as (Hn & He & Hp & Hr & _).
    unfold completenessScore, parseTextToStructuredData.
    rewrite (truthy_nonempty _ Hn), (truthy_nonempty _ He), (truthy_nonempty _ Hp),
      (truthy_nonempty _ Hr).
    lia.
Qed.

Lemma completeness_percentage_witness :
  getCompletenessPercentage (parseTextToStructuredData asciiLower scenarioA) = Some 50%Z
  /\ 4 <= completenessScore (parseTextToStructuredData asciiLower scenarioA).
Proof.
  split; [vm_compute; reflexivity|].
  exact (proj2 (proj2 (proj2 (completeness_percentage
           (parseTextToStructuredData asciiLower scenarioA))))
           asciiLower noFiles scenarioA textPlain eq_refl).
Defined.

(* ------------------------------------------------------------------ *)
(** ** A text without section headers *)

Lemma extractBasicInfo_sections (toLowerCase : str -> str) (lines : list str)
    (r : ResumeData) :
  let r' := extractBasicInfo toLowerCase lines r in
  summary r' = summary r /\ experience r' = experience r
  /\ education r' = education r /\ achievements r' = achievements r
  /\ skills r' = skills r /\ projects r' = projects r
  /\ courses r' = courses r /\ certifications r' = certifications r.
Proof.
  assert (Hstep : forall r0 l,
             let r' := contactStep r0 l in
             summary r' = summary r0 /\ experience r' = experience r0
             /\ education r' = education r0 /\ achievements r' = achievements r0
             /\ skills r' = skills r0 /\ projects r' = projects r0
             /\ courses r' = courses r0 /\ certifications r' = certifications r0).
  { intros r0 l. unfold contactStep.
    repeat match goal with
           | |- context [match ?x with _ => _ end] => destruct x; simpl
           end; auto 10. }
  assert (Hfold : forall ls r0,
             let r' := fold_left contactStep ls r0 in
             summary r' = summary r0 /\ experience r' = experience r0
             /\ education r' = education r0 /\ achievements r' = achievements r0
             /\ skills r' = skills r0 /\ projects r' = projects r0
             /\ courses r' = courses r0 /\ certifications r' = certifications r0).
  { induction ls as [|l ls IH]; intro r0; simpl; [auto 10|].
    destruct (IH (contactStep r0 l)) as (A & B & C & D & E & F & G & I).
    destruct (Hstep r0 l) as (A' & B' & C' & D' & E' & F' & G' & I').
    cbn zeta in *. rewrite A, B, C, D, E, F, G, I. auto 10. }
  assert (Hrole : forall ls r0,
             let r' := roleLoop toLowerCase ls r0 in
             summary r' = summary r0 /\ experience r' = experience r0
             /\ education r' = education r0 /\ achievements r' = achievements r0
             /\ skills r' = skills r0 /\ projects r' = projects r0
             /\ courses r' = courses r0 /\ certifications r' = certifications r0).
  { induction ls as [|l ls IH]; intro r0; simpl; [auto 10|].
    destruct (isRoleLine toLowerCase l && isEmpty (role r0)); simpl; auto 10. }
  cbn zeta. unfold extractBasicInfo.
  set (r0 := match lines with first :: _ => set_name first r | [] => r end).
  destruct (Hrole (firstn 4 (tl lines)) (fold_left contactStep (firstn 10 lines) r0))
    as (A & B & C & D & E & F & G & I).
  destruct (Hfold (firstn 10 lines) r0) as (A' & B' & C' & D' & E' & F' & G' & I').
  cbn zeta in *. rewrite A, B, C, D, E, F, G, I, A', B', C', D', E', F', G', I'.
  subst r0. destruct lines; simpl; auto 10.
Qed.

(** X17. When no line of the text is taken for a section header, the record
    holds the contact fields only: the summary and every sequence of entries
    are empty. *)
Theorem headerless_text_has_no_sections (toLowerCase : str -> str) (text : str) :
  Forall (fun line =>
            detected (detectSectionHeader (toLowerCase line) sectionKeywords) = None)
         (textLines text) ->
  let r := parseTextToStructuredData toLowerCase text in
  summary r = [] /\ experience r = [] /\ education r = [] /\ achievements r = []
  /\ skills r = [] /\ projects r = [] /\ courses r = [] /\ certifications r = [].
Proof.
  intro H. cbn zeta. unfold parseTextToStructuredData.
  assert (Hx : extractSections toLowerCase (textLines text)
                 (extractBasicInfo toLowerCase (textLines text) emptyResume)
               = extractBasicInfo toLowerCase (textLines text) emptyResume).
  { pose proof (extractSections_plain_prefix toLowerCase (textLines text) []
                  (extractBasicInfo toLowerCase (textLines text) emptyResume) H) as Hp.
    rewrite app_nil_r in Hp. exact Hp. }
  rewrite Hx.
  destruct (extractBasicInfo_sections toLowerCase (textLines text) emptyResume)
    as (A & B & C & D & E & F & G & I).
  cbn zeta in *. unfold cleanResumeData. simpl.
  rewrite A, B, C, D, E, F, G, I. simpl. auto 10.
Qed.

Lemma headerless_text_has_no_sections_witness :
  experience (parseTextToStructuredData asciiLower
                (unlines ["Jane Doe"; "Software Engineer"; "jane@x.com"]%string)) = []
  /\ skills (parseTextToStructuredData asciiLower
               (unlines ["Jane Doe"; "Software Engineer"; "jane@x.com"]%string)) = [].
Proof.
  assert (H : Forall (fun line =>
                        detected (detectSectionHeader (asciiLower line) sectionKeywords)
                        = None)
                     (textLines
                        (unlines ["Jane Doe"; "Software Engineer"; "jane@x.com"]%string)))
    by (repeat constructor).
  pose proof (headerless_text_has_no_sections asciiLower _ H) as R.
  cbn zeta in R. split; [apply R | apply R].
Defined.

(* ------------------------------------------------------------------ *)
(** ** Location lines *)

Lemma occurs_digits (m s : str) :
  occursIn m s -> length (filter isDigit m) <= length (filter isDigit s).
Proof.
  intros (b & a & ->). rewrite !filter_app, !length_app. lia.
Qed.

Lemma occurs_In (c : N) (m s : str) : occursIn m s -> In c m -> In c s.
Proof.
  intros (b & a & ->) H. apply in_or_app. right. apply in_or_app. left. exact H.
Qed.

(** X18. A line is taken for a location only if it holds a comma or at
    least five digits; so the location of a parsed record is such a line or
    the placeholder. *)
Theorem location_line_shape (line : str) :
  isLocationLine line = true ->
  In (ch ",") line \/ 5 <= length (filter isDigit line).
Proof.
  unfold isLocationLine, locationPatterns, test. simpl existsb.
  rewrite !orb_true_iff. intros [H | [H | [H | H]]]; try discriminate.
  - destruct (exec false _ line) as [m|] eqn:E; [|discriminate]. left.
    apply exec_sound in E. destruct E as [Hl Ho].
    cbv -[cls_mem app forallb] in Hl.
    destruct Hl as (u0 & v0 & -> & -> & u1 & v1 & -> & _ & u2 & v2 & -> & Hc & _).
    destruct Hc as (x & -> & Hx). apply cls_mem_one in Hx. subst x.
    apply (occurs_In _ _ _ Ho). apply in_or_app. right. apply in_or_app. right.
    left. reflexivity.
  - destruct (exec false _ line) as [m|] eqn:E; [|discriminate]. left.
    apply exec_sound in E. destruct E as [Hl Ho].
    cbv -[cls_mem app forallb] in Hl.
    destruct Hl as (u0 & v0 & -> & -> & u1 & v1 & -> & _ & u2 & v2 & -> & Hc & _).
    destruct Hc as (x & -> & Hx). apply cls_mem_one in Hx. subst x.
    apply (occurs_In _ _ _ Ho). apply in_or_app. right. apply in_or_app. right.
    left. reflexivity.
  - destruct (exec false _ line) as [m|] eqn:E; [|discriminate]. right.
    apply exec_sound in E. destruct E as [Hl Ho].
    apply lang_minDigits in Hl. apply occurs_digits in Ho.
    match type of Hl with
    | minDigits ?r <= _ =>
        let n := eval vm_compute in (minDigits r) in
        change (minDigits r) with n in Hl
    end. lia.
Qed.

Lemma location_line_shape_witness :
  In (ch ",") (js "Boston, MA") \/ 5 <= length (filter isDigit (js "Boston, MA")).
Proof.
  exact (location_line_shape (js "Boston, MA") eq_refl).
Defined.
